(** * gully: layered configuration reader (gully.py)

    A shallow embedding of [gully.py]: the two providers
    ([EnvVariablesProvider], [EnvFileProvider]) and [VariableReader],
    followed by the properties of the layered lookup, of the typed
    accessors, of the boolean coercion and of the env-file parser. *)

From Stdlib Require Import Ascii String ZArith NArith Lia.
From stdpp Require Import base option list gmap strings pretty.

Local Open Scope Z_scope.

(** ** Python text

    A Python [str] is modelled by a Rocq [string] whose characters are the
    code points below 256.  The methods below are the ones [gully.py]
    calls, each with the behaviour CPython has on that range. *)
Module Text.

Definition code (c : ascii) : N := N_of_ascii c.

(** [str.isspace] on one character: code points 9-13, 28-32, 133, 160. *)
Definition isspace (c : ascii) : bool :=
  let n := code c in
  ((9 <=? n) && (n <=? 13) || (28 <=? n) && (n <=? 32)
   || (n =? 133) || (n =? 160))%N.

(** [str.lower] on one character: A-Z, and the Latin-1 capitals
    192-222 except the multiplication sign 215, move up by 32. *)
Definition lower_char (c : ascii) : ascii :=
  let n := code c in
  if ((65 <=? n) && (n <=? 90)
      || (192 <=? n) && (n <=? 222) && negb (n =? 215))%N
  then ascii_of_N (n + 32) else c.

Fixpoint lower (s : string) : string :=
  match s with
  | EmptyString => EmptyString
  | String c s' => String (lower_char c) (lower s')
  end.

(** [s.startswith(c)] for a one-character prefix. *)
Definition startswith (s : string) (c : ascii) : bool :=
  match s with
  | String d _ => bool_decide (d = c)
  | EmptyString => false
  end.

Fixpoint lstrip (s : string) : string :=
  match s with
  | String c s' => if isspace c then lstrip s' else s
  | EmptyString => EmptyString
  end.

Fixpoint rstrip (s : string) : string :=
  match s with
  | String c s' =>
      match rstrip s' with
      | EmptyString => if isspace c then EmptyString else String c EmptyString
      | r => String c r
      end
  | EmptyString => EmptyString
  end.

(** [s.strip()]: whitespace removed at both ends. *)
Definition strip (s : string) : string := rstrip (lstrip s).

(** [s.split(c, 1)]: the texts before and after the first [c], or the
    one-element list [[s]] when [s] has no [c]. *)
Fixpoint cut (c : ascii) (s : string) : option (string * string) :=
  match s with
  | EmptyString => None
  | String d s' =>
      if bool_decide (d = c) then Some (EmptyString, s')
      else match cut c s' with
           | Some (b, a) => Some (String d b, a)
           | None => None
           end
  end.

Definition split1 (c : ascii) (s : string) : list string :=
  match cut c s with
  | Some (b, a) => [b; a]
  | None => [s]
  end.

(** Iterating over a text file yields its lines, each with its
    terminating newline (the last one possibly without). *)
Fixpoint lines (s : string) : list string :=
  match s with
  | EmptyString => []
  | String c s' =>
      if bool_decide (c = "010"%char) then String c EmptyString :: lines s'
      else match lines s' with
           | [] => [String c EmptyString]
           | l :: ls => String c l :: ls
           end
  end.

Fixpoint contains (c : ascii) (s : string) : bool :=
  match s with
  | EmptyString => false
  | String d s' => bool_decide (d = c) || contains c s'
  end.

(** Only whitespace (possibly nothing at all). *)
Fixpoint blank (s : string) : bool :=
  match s with
  | EmptyString => true
  | String c s' => isspace c && blank s'
  end.

Fixpoint ends_with_space (s : string) : bool :=
  match s with
  | EmptyString => false
  | String c EmptyString => isspace c
  | String _ s' => ends_with_space s'
  end.

Definition starts_with_space (s : string) : bool :=
  match s with
  | EmptyString => false
  | String c _ => isspace c
  end.

(** No whitespace at either end. *)
Definition trimmed (s : string) : bool :=
  negb (starts_with_space s) && negb (ends_with_space s).

End Text.

(** ** Exceptions, the outside world and the effect monad *)

(** The exceptions the module raises or lets through.  [KeyError None] is
    the bare [raise KeyError] of the providers, [KeyError (Some k)] the
    reader's [raise KeyError(key)]; [PyException] is the base class raised
    for a missing required file; [ValueError] is what unpacking the
    one-element result of [split] raises.  Messages of [TypeError] and
    [ValueError] are left out. *)
Inductive exn : Type :=
| KeyError (key : option string)
| TypeError
| ValueError
| PyException (msg : string)
| OtherError (name : string).

Inductive result (A : Type) : Type :=
| Ok (a : A)
| Raise (e : exn).
Arguments Ok {A} a.
Arguments Raise {A} e.

(** What the code reads from outside: the process environment
    ([os.environ]) and the text files on disk, by path. *)
Record world : Type := World {
  environ : gmap string string;
  files : gmap string string
}.

(** Observable accesses to the outside. *)
Inductive event : Type :=
| EvEnviron (key : string)
| EvExists (path : string)
| EvOpen (path : string).

(** A computation reads the world, logs its accesses and returns or
    raises. *)
Definition M (A : Type) : Type := world → list event * result A.

Definition ret {A} (a : A) : M A := λ _, ([], Ok a).
Definition raise {A} (e : exn) : M A := λ _, ([], Raise e).
Definition bind {A B} (m : M A) (k : A → M B) : M B :=
  λ w, match m w with
       | (t, Ok a) => let '(t', r) := k a w in (t ++ t', r)
       | (t, Raise e) => (t, Raise e)
       end.
Definition lift {A} (r : result A) : M A := λ _, ([], r).

(** [try: m  except KeyError: h]. *)
Definition except_KeyError {A} (m : M A) (h : M A) : M A :=
  λ w, match m w with
       | (t, Raise (KeyError _)) => let '(t', r) := h w in (t ++ t', r)
       | other => other
       end.

Notation "x <- m ;; k" := (bind m (λ x, k))
  (at level 100, m at next level, right associativity).

Definition os_environ_get (key : string) : M (option string) :=
  λ w, ([EvEnviron key], Ok (environ w !! key)).
Definition os_path_exists (path : string) : M bool :=
  λ w, ([EvExists path], Ok (bool_decide (is_Some (files w !! path)))).
(** [open(path)] and the iteration over the file: the text of a file is
    what reading it in text mode gives, and the lines are cut after each
    newline. *)
Definition open_lines (path : string) : M (list string) :=
  λ w, ([EvOpen path],
        match files w !! path with
        | Some text => Ok (Text.lines text)
        | None => Raise (OtherError "FileNotFoundError")
        end).

(** ** EnvFileProvider *)
Module EnvFileProvider.

(** The options block [{path: ..., require_file: ...}]; a key that is
    absent from the dict is [None]. *)
Record options : Type := Options {
  opt_path : option string;
  opt_require_file : option bool
}.
Definition no_options : options := Options None None.

Record t : Type := Provider {
  path : string;
  values : gmap string string
}.

Definition option_name : string := "env_file".

(** One turn of the loop body of [_read_file]. *)
Definition read_line (variables : gmap string string) (line : string)
  : result (gmap string string) :=
  if Text.startswith line "#" || bool_decide (Text.strip line = "")
  then Ok variables
  else match Text.split1 "=" (Text.strip line) with
       | [key; value] => Ok (<[Text.strip key := Text.strip value]> variables)
       | _ => Raise ValueError
       end.

Fixpoint read_lines (variables : gmap string string) (ls : list string)
  : result (gmap string string) :=
  match ls with
  | [] => Ok variables
  | line :: ls' =>
      match read_line variables line with
      | Ok variables' => read_lines variables' ls'
      | Raise e => Raise e
      end
  end.

Definition _read_file (path : string) : M (gmap string string) :=
  ls <- open_lines path ;;
  lift (read_lines ∅ ls).

Definition init (o : options) : M t :=
  let path := default ".env" (opt_path o) in
  present <- os_path_exists path ;;
  if negb present then
    if default false (opt_require_file o)
    then raise (PyException ("File does not exist: " +:+ path))
    else ret (Provider path ∅)
  else
    vs <- _read_file path ;;
    ret (Provider path vs).

Definition get (self : t) (key : string) : M string :=
  match values self !! key with
  | None => raise (KeyError None)
  | Some v => ret v
  end.

End EnvFileProvider.

(** ** EnvVariablesProvider *)
Module EnvVariablesProvider.

Definition option_name : string := "environ".

Definition get (key : string) : M string :=
  v <- os_environ_get key ;;
  match v with
  | None => raise (KeyError None)
  | Some s => ret s
  end.

End EnvVariablesProvider.

(** ** VariableReader *)

(** The conversion [t] handed to [__typed_get]: [self.value_to_bool],
    [str] or [int]. *)
Inductive conversion : Type := to_bool | to_str | to_int.

Module VariableReader.
Section Reader.

(** The functions a caller may pass as [callback]. *)
Variable callable : Type.

(** Python objects as far as the reader tells them apart.  [Empty] is
    the module's [_empty] singleton; [Other cls] is an instance of any
    class other than [str], [bool] and [int] (a float, [None], a list);
    the last two are the closures [__typed_get] builds, with the
    variables they capture. *)
Inductive value : Type :=
| Empty
| Str (s : string)
| Bool (b : bool)
| Int (z : Z)
| Other (cls : string)
| Fn (f : callable)
| OuterLambda (t : conversion) (callback : value)
| InnerLambda (t : conversion) (callback : value).

(** Calling a function of the caller, and the builtins [str] and
    [int]. *)
Variable apply_fn : callable → value → result value.
Variable builtin_str builtin_int : value → result value.

Definition is_empty (v : value) : bool :=
  match v with Empty => true | _ => false end.

Definition is_function (v : value) : bool :=
  match v with
  | Fn _ | OuterLambda _ _ | InnerLambda _ _ => true
  | _ => false
  end.

Definition truthy : gset string := {[ "y"; "yes"; "true"; "1" ]}.

Definition value_to_bool (v : value) : result value :=
  match v with
  | Str s => Ok (Bool (bool_decide (Text.lower s ∈ truthy)))
  | Bool b => Ok (Bool b)
  | Int z => Ok (Bool (z =? 1))
  | _ => Raise TypeError
  end.

Definition convert (t : conversion) (v : value) : result value :=
  match t with
  | to_bool => value_to_bool v
  | to_str => builtin_str v
  | to_int => builtin_int v
  end.

(** [f(v)].  The two closures are those of [__typed_get]:
    [lambda v: t(v) if callback is _empty else lambda v: callback(t(v))]
    is a lambda whose body is the whole conditional expression, so with
    a callback it evaluates to the inner lambda. *)
Fixpoint call (f : value) (v : value) : result value :=
  match f with
  | Fn c => apply_fn c v
  | OuterLambda t callback =>
      if is_empty callback then convert t v
      else Ok (InnerLambda t callback)
  | InnerLambda t callback =>
      match convert t v with
      | Ok u => call callback u
      | Raise e => Raise e
      end
  | _ => Raise TypeError
  end.

(** An instantiated provider: anything with a [get]. *)
Record provider : Type := { provider_get : string → M value }.

Definition environ_provider : provider :=
  {| provider_get key := s <- EnvVariablesProvider.get key ;; ret (Str s) |}.
Definition file_provider (p : EnvFileProvider.t) : provider :=
  {| provider_get key := s <- EnvFileProvider.get p key ;; ret (Str s) |}.

(** A provider class: [option_name()] and the constructor, called with
    its options block. *)
Record provider_class : Type := {
  option_name : string;
  new : EnvFileProvider.options → M provider
}.

Definition EnvVariablesProvider_class : provider_class :=
  {| option_name := EnvVariablesProvider.option_name;
     new _ := ret environ_provider |}.
Definition EnvFileProvider_class : provider_class :=
  {| option_name := EnvFileProvider.option_name;
     new o := p <- EnvFileProvider.init o ;; ret (file_provider p) |}.

Definition default_providers : list provider_class :=
  [EnvVariablesProvider_class; EnvFileProvider_class].

Record t : Type := Reader { providers : list provider }.

Fixpoint instantiate (classes : list provider_class)
    (options : gmap string EnvFileProvider.options) : M (list provider) :=
  match classes with
  | [] => ret []
  | c :: cs =>
      p <- new c (default EnvFileProvider.no_options
                    (options !! option_name c)) ;;
      ps <- instantiate cs options ;;
      ret (p :: ps)
  end.

Definition init (classes : list provider_class)
    (options : gmap string EnvFileProvider.options) : M t :=
  ps <- instantiate (match classes with
                     | [] => default_providers
                     | _ => classes
                     end) options ;;
  ret (Reader ps).

(** The [for] loop of [get]: the value of the first provider that does
    not raise [KeyError], or [_empty]. *)
Fixpoint first_value (ps : list provider) (key : string) : M value :=
  match ps with
  | [] => ret Empty
  | p :: ps' => except_KeyError (provider_get p key) (first_value ps' key)
  end.

Definition get (self : t) (key : string) (default callback : value)
  : M value :=
  value <- first_value (providers self) key ;;
  if is_empty value then
    if is_empty default then raise (KeyError (Some key))
    else ret default
  else if negb (is_empty callback) then lift (call callback value)
  else ret value.

Definition typed_get (self : t) (key : string) (default callback : value)
    (t : conversion) : M value :=
  get self key default (OuterLambda t callback).

Definition bool_ (self : t) (key : string) (default callback : value) :=
  typed_get self key default callback to_bool.
Definition str_ (self : t) (key : string) (default callback : value) :=
  typed_get self key default callback to_str.
Definition int_ (self : t) (key : string) (default callback : value) :=
  typed_get self key default callback to_int.

End Reader.

Arguments Empty {callable}.
Arguments Str {callable} s.
Arguments Bool {callable} b.
Arguments Int {callable} z.
Arguments Other {callable} cls.
Arguments Fn {callable} f.
Arguments OuterLambda {callable} t callback.
Arguments InnerLambda {callable} t callback.
Arguments is_empty {callable} v.
Arguments is_function {callable} v.
Arguments value_to_bool {callable} v.
Arguments provider_get {callable} _ _.
Arguments Reader {callable} _.
Arguments providers {callable} _.
Arguments first_value {callable} _ _.
Arguments environ_provider {callable}.
Arguments file_provider {callable} _.

End VariableReader.

(** * Vocabulary of the properties *)

(** ** The env file *)

(** The path a provider is built for: [options.get('path', '.env')]. *)
Definition the_path (o : EnvFileProvider.options) : string :=
  default ".env" (EnvFileProvider.opt_path o).

(** What a line of an env file means, as the file format is described:
    a comment, a blank line, or [KEY=VALUE] with whitespace allowed
    around both parts (the line's newline is part of the trailing
    whitespace). *)
Inductive denotes : string → option (string * string) → Prop :=
| denotes_comment (text : string) :
    denotes (String "#" text) None
| denotes_blank (w : string) :
    Text.blank w = true → denotes w None
| denotes_entry (w1 k w2 w3 v w4 : string) :
    Text.blank w1 = true → Text.blank w2 = true →
    Text.blank w3 = true → Text.blank w4 = true →
    Text.trimmed k = true → Text.trimmed v = true →
    Text.contains "=" k = false →
    Text.startswith (w1 +:+ k +:+ w2 +:+ "=") "#" = false →
    denotes (w1 +:+ k +:+ w2 +:+ "=" +:+ w3 +:+ v +:+ w4) (Some (k, v)).

(** The mapping a sequence of entries builds: later entries replace
    earlier ones. *)
Definition entries_map (items : list (option (string * string)))
  : gmap string string :=
  list_to_map (reverse (omap id items)).

Definition put (m : gmap string string) (item : option (string * string))
  : gmap string string :=
  match item with
  | Some (k, v) => <[k := v]> m
  | None => m
  end.

(** A sequence of [get] calls, each made in the world as it is at that
    moment: the accesses logged and the results. *)
Fixpoint gets (p : EnvFileProvider.t) (calls : list (world * string))
  : list event * list (result string) :=
  match calls with
  | [] => ([], [])
  | (w, key) :: calls' =>
      let '(tr, r) := EnvFileProvider.get p key w in
      let '(tr', rs) := gets p calls' in
      (tr ++ tr', r :: rs)
  end.

Definition is_open (e : event) : bool :=
  match e with EvOpen _ => true | _ => false end.

(** A text file from its lines, each ended by a newline. *)
Definition unlines (ls : list string) : string :=
  foldr (λ l rest, l +:+ String "010" rest) "" ls.

(** ** The reader *)

(** [p] has no value for [key]: its [get] raises [KeyError]. *)
Definition absent {callable : Type} (key : string) (w : world)
    (p : VariableReader.provider callable) : Prop :=
  ∃ a, (VariableReader.provider_get p key w).2 = Raise (KeyError a).

(** [p] has the value [v] for [key]. *)
Definition resolves {callable : Type} (key : string) (w : world)
    (p : VariableReader.provider callable)
    (v : VariableReader.value callable) : Prop :=
  (VariableReader.provider_get p key w).2 = Ok v ∧ v ≠ VariableReader.Empty.

(** The accesses to the outside made by querying each of [ps] in turn. *)
Definition accesses {callable : Type} (key : string) (w : world)
    (ps : list (VariableReader.provider callable)) : list event :=
  ps ≫= λ p, (VariableReader.provider_get p key w).1.

Definition is_KeyError (e : exn) : bool :=
  match e with KeyError _ => true | _ => false end.

(** ** Case-insensitive matching *)

(** Matching a word without regard to the case of ASCII letters, stated
    on its own: both texts have the same length and agree letter by
    letter once each letter is put in upper case. *)
Definition ascii_upper (c : ascii) : ascii :=
  let n := Text.code c in
  if ((97 <=? n) && (n <=? 122))%N then ascii_of_N (n - 32) else c.

Fixpoint same_ignoring_case (s w : string) : bool :=
  match s, w with
  | EmptyString, EmptyString => true
  | String c s', String d w' =>
      bool_decide (ascii_upper c = ascii_upper d) && same_ignoring_case s' w'
  | _, _ => false
  end.

Definition true_words : list string := ["y"; "yes"; "true"; "1"].

Definition word_chars : list ascii := ["y"; "e"; "s"; "t"; "r"; "u"; "1"]%char.

Fixpoint chars (s : string) : list ascii :=
  match s with
  | EmptyString => []
  | String c s' => c :: chars s'
  end.

(** ** A concrete caller *)

(** A caller with two functions of its own, and the builtins [int] and
    [str] on the objects used in the runs below. *)
Module Sample.
Import VariableReader.

Inductive fn : Type :=
| add_one       (* lambda n: n + 1 *)
| shout.        (* lambda s: s + "!" *)

Definition apply_fn (f : fn) (v : value fn) : result (value fn) :=
  match f, v with
  | add_one, Int z => Ok (Int (z + 1))
  | shout, Str s => Ok (Str (s +:+ "!"))
  | _, _ => Raise TypeError
  end.

Fixpoint digits (s : string) (acc : Z) : option Z :=
  match s with
  | EmptyString => Some acc
  | String c s' =>
      match Ascii.is_nat c with
      | Some d => digits s' (10 * acc + Z.of_nat d)
      | None => None
      end
  end.

Definition builtin_int (v : value fn) : result (value fn) :=
  match v with
  | Int z => Ok (Int z)
  | Bool b => Ok (Int (if b then 1 else 0))
  | Str s =>
      match Text.strip s with
      | EmptyString => Raise ValueError
      | d => match digits d 0 with
             | Some z => Ok (Int z)
             | None => Raise ValueError
             end
      end
  | _ => Raise TypeError
  end.

Definition builtin_str (v : value fn) : result (value fn) :=
  match v with
  | Str s => Ok (Str s)
  | Bool b => Ok (Str (if b then "True" else "False"))
  | Int z => Ok (Str (pretty z))
  | Other cls => Ok (Str ("<" +:+ cls +:+ " object>"))
  | _ => Ok (Str "<function>")
  end.

Definition get := VariableReader.get fn apply_fn builtin_str builtin_int.
Definition int_ := VariableReader.int_ fn apply_fn builtin_str builtin_int.
Definition str_ := VariableReader.str_ fn apply_fn builtin_str builtin_int.
Definition bool_ := VariableReader.bool_ fn apply_fn builtin_str builtin_int.
Definition call := VariableReader.call fn apply_fn builtin_str builtin_int.

(** The file of the parsing scenario. *)
Definition env_text : string := unlines ["# comment"; ""; "A=1"; "B = 2"].

Definition env_items : list (option (string * string)) :=
  [None; None; Some ("A", "1"); Some ("B", "2")].

Definition w_env : world :=
  World {[ "PORT" := "8080"; "A" := "env" ]} {[ ".env" := env_text ]}.

(** Nothing set anywhere. *)
Definition w_bare : world := World ∅ ∅.

Definition env_only : t fn := Reader [environ_provider].

(** A file provider that holds [A], for a reader in which the
    environment, which sets [A] too, comes first. *)
Definition file_A : EnvFileProvider.t :=
  EnvFileProvider.Provider ".env" {[ "A" := "file" ]}.

Definition required : EnvFileProvider.options :=
  EnvFileProvider.Options (Some "/tmp/x.env") (Some true).

Definition broken_text : string := unlines ["A=1"; "BROKEN"; "B=2"].
Definition w_broken : world := World ∅ {[ ".env" := broken_text ]}.

Definition w_rewritten : world :=
  World ∅ {[ ".env" := unlines ["A=changed"] ]}.

Definition indented_text : string := unlines ["A=1"; "  # note"].
Definition w_indented : world := World ∅ {[ ".env" := indented_text ]}.

Definition twice_text : string := unlines ["A=1"; "B=0"; "A = 2"].
Definition w_twice : world := World ∅ {[ ".env" := twice_text ]}.

Definition nl : string := String "010" "".

End Sample.

(** ** The outside changing between calls *)

(** [os.environ[key] = v] and [del os.environ[key]], done by anyone in the
    process. *)
Definition setenv (key v : string) (w : world) : world :=
  World (<[key := v]> (environ w)) (files w).
Definition unsetenv (key : string) (w : world) : world :=
  World (delete key (environ w)) (files w).

(** ** Loaded entries *)

(** A well-kept text of a mapping: no whitespace at its ends and no
    newline inside. *)
Definition tidy (s : string) : Prop :=
  Text.trimmed s = true ∧ Text.contains "010" s = false.

(** A mapping of tidy keys and values, no key holding an [=]. *)
Definition clean (m : gmap string string) : Prop :=
  ∀ k v, m !! k = Some v → tidy k ∧ tidy v ∧ Text.contains "=" k = false.

(** A line the loop of [_read_file] passes over. *)
Definition skipped (line : string) : Prop :=
  Text.startswith line "#" = true ∨ Text.blank line = true.

(** ** Building a reader *)

(** [providers or self.default_providers]. *)
Definition chosen {callable : Type}
    (classes : list (VariableReader.provider_class callable))
  : list (VariableReader.provider_class callable) :=
  match classes with
  | [] => VariableReader.default_providers callable
  | _ => classes
  end.

(** [options.get(provider.option_name(), {})]. *)
Definition block_for {callable : Type}
    (options : gmap string EnvFileProvider.options)
    (c : VariableReader.provider_class callable) : EnvFileProvider.options :=
  default EnvFileProvider.no_options
    (options !! VariableReader.option_name callable c).

(** The accesses made by constructing each of [cs] in turn. *)
Definition constructions {callable : Type}
    (options : gmap string EnvFileProvider.options) (w : world)
    (cs : list (VariableReader.provider_class callable)) : list event :=
  cs ≫= λ c, (VariableReader.new callable c (block_for options c) w).1.

(** What the default reader answers, from the environment of the moment
    and the values its file provider holds. *)
Definition layered (environ_now values : gmap string string) (key : string)
  : option string :=
  match environ_now !! key with
  | Some s => Some s
  | None => values !! key
  end.

(** ** More concrete data *)
Module More.
Import VariableReader Sample.

Definition w_file : world :=
  World {[ "A" := "env"; "DEBUG" := "Yes" ]}
        {[ ".env" := unlines ["A = file"; "B = 2"; "FLAG = TRUE"] ]}.

Definition file_values : gmap string string :=
  {[ "A" := "file"; "B" := "2"; "FLAG" := "TRUE" ]}.

Definition w_later : world :=
  World {[ "B" := "now" ]} {[ ".env" := unlines ["A = other"] ]}.

(** A provider class whose constructor always fails. *)
Definition failing_class : provider_class fn :=
  {| option_name := "failing";
     new _ := raise (OtherError "RuntimeError") |}.

(** A provider that holds one object of another type. *)
Definition float_provider : provider fn :=
  {| provider_get key :=
       if bool_decide (key = "RATIO") then ret (Other "float")
       else raise (KeyError None) |}.

Definition w_ab : world := World ∅ {[ ".env" := unlines ["A=1"; "B=2"] ]}.
Definition w_ba : world := World ∅ {[ ".env" := unlines ["B=2"; "A=1"] ]}.

Definition w_notes : world :=
  World ∅ {[ ".env" := unlines ["# only notes"; ""; "   "] ]}.

Definition w_open_end : world := World ∅ {[ ".env" := "A=1" ]}.
Definition w_closed_end : world := World ∅ {[ ".env" := "A=1" +:+ nl ]}.

(** The default reader as built in [w_file]. *)
Definition default_reader : t fn :=
  Reader [environ_provider;
          file_provider (EnvFileProvider.Provider ".env" file_values)].

End More.

(** * Properties *)

(** ** Text *)
Section TextFacts.
Import Text.

Lemma sapp_nil_l (s : string) : "" +:+ s = s.
Proof. reflexivity. Qed.

Lemma sapp_cons (c : ascii) (s r : string) :
  String c s +:+ r = String c (s +:+ r).
Proof. reflexivity. Qed.

Lemma sapp_nil_r (s : string) : s +:+ "" = s.
Proof. induction s as [|c s IH]; [done|]. by rewrite sapp_cons, IH. Qed.

Lemma sapp_assoc (s r u : string) : (s +:+ r) +:+ u = s +:+ (r +:+ u).
Proof. induction s as [|c s IH]; [done|]. by rewrite !sapp_cons, IH. Qed.

Lemma sapp_not_nil (s : string) (c : ascii) (r : string) :
  s +:+ String c r ≠ "".
Proof. by destruct s. Qed.

(** *** [cut] and [contains] *)

Lemma cut_None (c : ascii) (s : string) :
  cut c s = None ↔ contains c s = false.
Proof.
  induction s as [|d s IH]; simpl; [done|].
  case_bool_decide; simpl; [done|].
  destruct (cut c s) as [[b a]|]; [|tauto].
  split; [done|]. intros Hs. by apply IH in Hs.
Qed.

Lemma cut_app (c : ascii) (b a : string) :
  contains c b = false → cut c (b +:+ String c a) = Some (b, a).
Proof.
  induction b as [|d b IH]; simpl; intros H.
  - by rewrite bool_decide_true.
  - apply orb_false_iff in H as [Hd Hb].
    rewrite ?sapp_cons. simpl. rewrite Hd. by rewrite (IH Hb).
Qed.

Lemma cut_Some (c : ascii) (s b a : string) :
  cut c s = Some (b, a) → s = b +:+ String c a ∧ contains c b = false.
Proof.
  revert b. induction s as [|d s IH]; simpl; intros b H; [done|].
  case_bool_decide as Hd.
  - by simplify_eq.
  - destruct (cut c s) as [[b' a']|]; [|done]. simplify_eq.
    destruct (IH b' eq_refl) as [-> Hb]. simpl.
    rewrite bool_decide_false by done. by rewrite ?sapp_cons.
Qed.

Lemma contains_app (c : ascii) (s r : string) :
  contains c (s +:+ r) = contains c s || contains c r.
Proof.
  induction s as [|d s IH]; [done|].
  rewrite ?sapp_cons. simpl. by rewrite IH, orb_assoc.
Qed.

(** *** [lstrip] *)

Lemma lstrip_blank (w s : string) :
  blank w = true → lstrip (w +:+ s) = lstrip s.
Proof.
  induction w as [|c w IH]; [done|]. simpl.
  intros [Hc Hw]%andb_true_iff. rewrite ?sapp_cons. simpl. by rewrite Hc, IH.
Qed.

Lemma lstrip_id (s : string) : starts_with_space s = false → lstrip s = s.
Proof. destruct s as [|c s]; simpl; [done|]. by intros ->. Qed.

Lemma lstrip_starts (s : string) : starts_with_space (lstrip s) = false.
Proof.
  induction s as [|c s IH]; simpl; [done|].
  destruct (isspace c) eqn:Hc; [done|]. simpl. by rewrite Hc.
Qed.

Lemma lstrip_idemp (s : string) : lstrip (lstrip s) = lstrip s.
Proof. apply lstrip_id, lstrip_starts. Qed.

Lemma lstrip_app_nonspace (b : string) (c : ascii) (a : string) :
  isspace c = false → lstrip (b +:+ String c a) = lstrip b +:+ String c a.
Proof.
  intros Hc. induction b as [|d b IH].
  - rewrite ?sapp_nil_l. simpl. by rewrite Hc.
  - rewrite ?sapp_cons. simpl. by destruct (isspace d).
Qed.

Lemma contains_lstrip (c : ascii) (s : string) :
  contains c s = false → contains c (lstrip s) = false.
Proof.
  induction s as [|d s IH]; simpl; [done|].
  intros [Hd Hs]%orb_false_iff.
  destruct (isspace d); [auto|]. simpl. by rewrite Hd, Hs.
Qed.

(** *** [rstrip] *)

Lemma rstrip_cons_nonspace (c : ascii) (s : string) :
  isspace c = false → rstrip (String c s) = String c (rstrip s).
Proof. intros Hc. simpl. rewrite Hc. by destruct (rstrip s). Qed.

Lemma rstrip_cons_keep (c : ascii) (s : string) :
  rstrip s ≠ "" → rstrip (String c s) = String c (rstrip s).
Proof. intros Hs. simpl. by destruct (rstrip s). Qed.

Lemma rstrip_blank_nil (w : string) : blank w = true → rstrip w = "".
Proof.
  induction w as [|c w IH]; simpl; [done|].
  intros [Hc Hw]%andb_true_iff. by rewrite (IH Hw), Hc.
Qed.

Lemma rstrip_nil_blank (s : string) : rstrip s = "" → blank s = true.
Proof.
  induction s as [|c s IH]; simpl; [done|].
  destruct (rstrip s); [|done].
  destruct (isspace c); [|done]. intros _. by apply IH.
Qed.

Lemma rstrip_app_nonspace (x : string) (c : ascii) (a : string) :
  isspace c = false → rstrip (x +:+ String c a) = x +:+ String c (rstrip a).
Proof.
  intros Hc. induction x as [|d x IH].
  - rewrite ?sapp_nil_l. by apply rstrip_cons_nonspace.
  - rewrite !sapp_cons, rstrip_cons_keep; rewrite IH; [done|].
    apply sapp_not_nil.
Qed.

Lemma rstrip_blank (s w : string) :
  blank w = true → rstrip (s +:+ w) = rstrip s.
Proof.
  intros Hw. induction s as [|c s IH].
  - rewrite ?sapp_nil_l. by apply rstrip_blank_nil.
  - rewrite ?sapp_cons. simpl. by rewrite IH.
Qed.

Lemma rstrip_id (s : string) : ends_with_space s = false → rstrip s = s.
Proof.
  induction s as [|c s IH]; [done|].
  destruct s as [|d s].
  - simpl. by intros ->.
  - intros H. rewrite rstrip_cons_keep; rewrite IH; done.
Qed.

Lemma rstrip_ends (s : string) : ends_with_space (rstrip s) = false.
Proof.
  induction s as [|c s IH]; [done|]. simpl.
  destruct (rstrip s) as [|d r] eqn:Hr.
  - destruct (isspace c) eqn:Hc; [done|]. simpl. by rewrite Hc.
  - done.
Qed.

Lemma rstrip_idemp (s : string) : rstrip (rstrip s) = rstrip s.
Proof. apply rstrip_id, rstrip_ends. Qed.

Lemma contains_rstrip (c : ascii) (s : string) :
  contains c s = false → contains c (rstrip s) = false.
Proof.
  induction s as [|d s IH]; simpl; [done|].
  intros [Hd Hs]%orb_false_iff. specialize (IH Hs).
  destruct (rstrip s) as [|e r].
  - destruct (isspace d); [done|]. simpl. by rewrite Hd.
  - simpl in *. by rewrite Hd, IH.
Qed.

Lemma lstrip_rstrip (s : string) : lstrip (rstrip s) = rstrip (lstrip s).
Proof.
  induction s as [|c s IH]; [done|].
  destruct (isspace c) eqn:Hc.
  - simpl lstrip at 2. rewrite Hc, <- IH. simpl rstrip.
    destruct (rstrip s) as [|d r]; simpl; by rewrite Hc.
  - rewrite rstrip_cons_nonspace by done. simpl. rewrite Hc.
    by rewrite rstrip_cons_nonspace.
Qed.

(** *** [strip] *)

Lemma strip_lstrip (s : string) : strip (lstrip s) = strip s.
Proof. unfold strip. by rewrite lstrip_idemp. Qed.

Lemma strip_rstrip (s : string) : strip (rstrip s) = strip s.
Proof. unfold strip. by rewrite lstrip_rstrip, rstrip_idemp. Qed.

Lemma strip_trimmed (s : string) : trimmed (strip s) = true.
Proof.
  unfold trimmed, strip. rewrite rstrip_ends, <- lstrip_rstrip.
  by rewrite lstrip_starts.
Qed.

Lemma strip_id (s : string) : trimmed s = true → strip s = s.
Proof.
  unfold trimmed, strip.
  intros [Hl%negb_true_iff Hr%negb_true_iff]%andb_true_iff.
  by rewrite lstrip_id, rstrip_id.
Qed.

(** Whitespace around a trimmed text is what [strip] removes. *)
Lemma strip_surround (w1 s w2 : string) :
  blank w1 = true → blank w2 = true → trimmed s = true →
  strip (w1 +:+ s +:+ w2) = s.
Proof.
  intros H1 H2 Hs. unfold strip. rewrite <- lstrip_rstrip.
  rewrite <- sapp_assoc, rstrip_blank by done.
  rewrite lstrip_rstrip, lstrip_blank by done.
  by apply strip_id.
Qed.

Lemma strip_nil_blank (s : string) : strip s = "" ↔ blank s = true.
Proof.
  unfold strip. split.
  - intros H%rstrip_nil_blank. revert H.
    induction s as [|c s IH]; simpl; [done|].
    destruct (isspace c) eqn:Hc; simpl; [done|]. by rewrite Hc.
  - intros H. rewrite <- (sapp_nil_r s), lstrip_blank by done. done.
Qed.

Lemma strip_cut (s b a : string) :
  cut "=" s = Some (b, a) →
  cut "=" (strip s) = Some (lstrip b, rstrip a).
Proof.
  intros [-> Hb]%cut_Some. unfold strip.
  rewrite lstrip_app_nonspace, rstrip_app_nonspace by done.
  by apply cut_app, contains_lstrip.
Qed.

Lemma strip_no_cut (s : string) :
  contains "=" s = false → cut "=" (strip s) = None.
Proof.
  intros H. apply cut_None. unfold strip.
  by apply contains_rstrip, contains_lstrip.
Qed.

(** What [strip] removes is whitespace at the two ends. *)
Lemma lstrip_split (s : string) :
  ∃ w, blank w = true ∧ s = w +:+ lstrip s.
Proof.
  induction s as [|c s (w & Hw & Hs)]; [by exists ""|].
  simpl. destruct (isspace c) eqn:Hc.
  - exists (String c w). simpl. rewrite Hc, Hw. split; [done|].
    by rewrite sapp_cons, <- Hs.
  - by exists "".
Qed.

Lemma rstrip_split (s : string) :
  ∃ w, blank w = true ∧ s = rstrip s +:+ w.
Proof.
  induction s as [|c s (w & Hw & Hs)]; [by exists ""|].
  simpl. destruct (rstrip s) as [|d r] eqn:Hr.
  - destruct (isspace c) eqn:Hc.
    + exists (String c s). split; [|done]. simpl. rewrite Hc.
      by apply rstrip_nil_blank.
    + exists w. split; [done|]. by rewrite sapp_cons, <- Hs.
  - exists w. split; [done|]. by rewrite sapp_cons, <- Hs.
Qed.

Lemma strip_split (s : string) :
  ∃ w1 w2, blank w1 = true ∧ blank w2 = true ∧ s = w1 +:+ strip s +:+ w2.
Proof.
  destruct (lstrip_split s) as (w1 & H1 & Hs).
  destruct (rstrip_split (lstrip s)) as (w2 & H2 & Hl).
  exists w1, w2. split; [done|]. split; [done|].
  unfold strip. by rewrite <- Hl.
Qed.

Lemma cut_strip_inv (s k v : string) :
  cut "=" (strip s) = Some (k, v) → ∃ b a, cut "=" s = Some (b, a).
Proof.
  intros H. destruct (cut "=" s) as [[b a]|] eqn:Hs; [eauto|].
  apply cut_None, strip_no_cut in Hs. congruence.
Qed.

(** [lines] undoes [unlines] when no line holds a newline of its own. *)
Lemma lines_first (l rest : string) :
  contains "010" l = false →
  lines (l +:+ String "010" rest) = (l +:+ String "010" "") :: lines rest.
Proof.
  induction l as [|c l IH]; [done|]. simpl.
  intros [Hc Hl]%orb_false_iff.
  rewrite !sapp_cons. simpl. by rewrite Hc, (IH Hl).
Qed.

Lemma lines_unlines (ls : list string) :
  Forall (λ l, contains "010" l = false) ls →
  lines (unlines ls) = (λ l, l +:+ String "010" "") <$> ls.
Proof.
  induction 1 as [|l ls Hl _ IH]; [done|].
  rewrite fmap_cons, <- IH. by apply lines_first.
Qed.

End TextFacts.

(** ** The env-file parser *)

Section FileFacts.
Import Text EnvFileProvider.

Lemma startswith_app (s r : string) (c : ascii) :
  s ≠ "" → startswith (s +:+ r) c = startswith s c.
Proof. by destruct s. Qed.

Lemma read_line_skip (m : gmap string string) (line : string) :
  startswith line "#" = true ∨ blank line = true →
  read_line m line = Ok m.
Proof.
  unfold read_line. intros [-> | Hb]; [done|].
  apply strip_nil_blank in Hb. rewrite Hb.
  by rewrite orb_true_r.
Qed.

Lemma read_line_entry (m : gmap string string) (line b a : string) :
  startswith line "#" = false → cut "=" line = Some (b, a) →
  read_line m line = Ok (<[strip b := strip a]> m).
Proof.
  intros Hc Hcut. unfold read_line, split1.
  rewrite Hc, (strip_cut _ _ _ Hcut), strip_lstrip, strip_rstrip.
  rewrite bool_decide_false; [done|].
  intros Hnil. apply strip_cut in Hcut. by rewrite Hnil in Hcut.
Qed.

Lemma read_line_malformed (m : gmap string string) (line : string) :
  startswith line "#" = false → strip line ≠ "" →
  contains "=" line = false →
  read_line m line = Raise ValueError.
Proof.
  intros Hc Hb He. unfold read_line, split1.
  rewrite Hc, (strip_no_cut _ He). by rewrite bool_decide_false.
Qed.

Lemma read_line_raises (m : gmap string string) (line : string) (e : exn) :
  read_line m line = Raise e → e = ValueError.
Proof.
  unfold read_line, split1.
  destruct (_ || _); [done|].
  destruct (cut "=" (strip line)) as [[b a]|]; [done|]. by intros [= <-].
Qed.

Lemma read_lines_raises (m : gmap string string) (ls : list string) (e : exn) :
  read_lines m ls = Raise e → e = ValueError.
Proof.
  revert m. induction ls as [|l ls IH]; simpl; intros m; [done|].
  destruct (read_line m l) eqn:Hl; [by apply IH|].
  intros [= <-]. by eapply read_line_raises.
Qed.

Lemma read_lines_malformed (m : gmap string string) (ls : list string)
    (line : string) :
  line ∈ ls → startswith line "#" = false → strip line ≠ "" →
  contains "=" line = false →
  read_lines m ls = Raise ValueError.
Proof.
  intros Hin Hc Hb He. revert m.
  induction Hin as [line ls | line l ls Hin IH]; simpl; intros m.
  - by rewrite read_line_malformed.
  - destruct (read_line m l) eqn:Hl; [by apply IH|].
    by rewrite (read_line_raises _ _ _ Hl).
Qed.

Lemma read_line_denotes (m : gmap string string) (line : string)
    (item : option (string * string)) :
  denotes line item → read_line m line = Ok (put m item).
Proof.
  intros [text | w Hw | w1 k w2 w3 v w4 H1 H2 H3 H4 Hk Hv Hke Hc].
  - by apply read_line_skip; left.
  - by apply read_line_skip; right.
  - simpl.
    pose proof (cut_app "=" (w1 +:+ k +:+ w2) (w3 +:+ v +:+ w4)) as Hcut.
    rewrite !sapp_assoc in Hcut.
    rewrite (read_line_entry m _ (w1 +:+ k +:+ w2) (w3 +:+ v +:+ w4)).
    + by rewrite !strip_surround.
    + destruct w1 as [|c w1]; [destruct k as [|c k]|]; [| done | done].
      destruct w2; simpl in *; [done|].
      by rewrite bool_decide_false
        by (intros ->; by apply andb_true_iff in H2 as [? _]).
    + apply Hcut. rewrite !contains_app, Hke.
      assert (∀ w, blank w = true → contains "=" w = false) as Hbl.
      { induction w as [|c w IH]; simpl; [done|].
        intros [Hcs Hw]%andb_true_iff. rewrite (IH Hw), orb_false_r.
        apply bool_decide_false. by intros ->. }
      by rewrite !Hbl.
Qed.

Lemma read_lines_denotes (m : gmap string string) (ls : list string)
    (items : list (option (string * string))) :
  Forall2 denotes ls items →
  read_lines m ls = Ok (foldl put m items).
Proof.
  intros H. revert m.
  induction H as [|l item ls items Hl _ IH]; simpl; intros m; [done|].
  by rewrite (read_line_denotes _ _ _ Hl).
Qed.

Lemma foldl_put (m : gmap string string)
    (items : list (option (string * string))) :
  foldl put m items =
  foldr (λ kv, <[kv.1 := kv.2]>) m (reverse (omap id items)).
Proof.
  revert m. induction items as [|[[k v]|] items IH]; simpl; intros m.
  - done.
  - rewrite reverse_cons, foldr_app. simpl. apply IH.
  - apply IH.
Qed.

(** Every line the loop accepts is one of the three kinds. *)
Lemma read_line_complete (m m' : gmap string string) (line : string) :
  read_line m line = Ok m' →
  ∃ item, denotes line item ∧ m' = put m item.
Proof.
  unfold read_line.
  destruct (startswith line "#") eqn:Hc; simpl.
  { intros [= <-]. exists None. split; [|done].
    destruct line as [|c line]; [done|]. simpl in Hc.
    apply bool_decide_eq_true in Hc as ->. apply denotes_comment. }
  case_bool_decide as Hb.
  { intros [= <-]. exists None. split; [|done].
    by apply denotes_blank, strip_nil_blank. }
  unfold split1. destruct (cut "=" (strip line)) as [[k0 v0]|] eqn:Hk; [|done].
  intros [= <-].
  destruct (cut_strip_inv _ _ _ Hk) as (b & a & Hcut).
  pose proof (read_line_entry m line b a Hc Hcut) as Hline.
  unfold read_line, split1 in Hline. rewrite Hc, Hk in Hline. simpl in Hline.
  rewrite bool_decide_false in Hline by done.
  exists (Some (strip b, strip a)). split; [|by injection Hline].
  apply cut_Some in Hcut as [-> Hbe].
  destruct (strip_split b) as (w1 & w2 & H1 & H2 & Hbs).
  destruct (strip_split a) as (w3 & w4 & H3 & H4 & Has).
  assert (b +:+ String "=" a =
          w1 +:+ strip b +:+ w2 +:+ "=" +:+ w3 +:+ strip a +:+ w4) as Heq.
  { rewrite Has at 1. rewrite Hbs at 1. by rewrite !sapp_assoc. }
  rewrite Heq. apply denotes_entry; try done; try apply strip_trimmed.
  - unfold strip. by apply contains_rstrip, contains_lstrip.
  - rewrite Heq in Hc.
    assert (w1 +:+ strip b +:+ w2 +:+ "=" +:+ w3 +:+ strip a +:+ w4 =
            (w1 +:+ strip b +:+ w2 +:+ "=") +:+ w3 +:+ strip a +:+ w4)
      as Hassoc by (by rewrite !sapp_assoc).
    rewrite Hassoc, startswith_app in Hc; [done|].
    rewrite <- !sapp_assoc. apply sapp_not_nil.
Qed.

Lemma read_lines_complete (m m' : gmap string string) (ls : list string) :
  read_lines m ls = Ok m' → ∃ items, Forall2 denotes ls items.
Proof.
  revert m. induction ls as [|l ls IH]; simpl; intros m.
  - intros _. by exists [].
  - destruct (read_line m l) as [m1|] eqn:Hl; [|done].
    intros (items & Hi)%IH.
    destruct (read_line_complete _ _ _ Hl) as (item & Hd & _).
    exists (item :: items). by constructor.
Qed.

Lemma read_lines_entries (ls : list string)
    (items : list (option (string * string))) :
  Forall2 denotes ls items → read_lines ∅ ls = Ok (entries_map items).
Proof.
  intros H. rewrite (read_lines_denotes _ _ _ H), foldl_put.
  unfold entries_map, list_to_map. f_equal.
Qed.

(** Construction, by cases on the presence of the file. *)
Lemma init_missing (o : options) (w : world) :
  files w !! the_path o = None →
  init o w =
    ([EvExists (the_path o)],
     if default false (opt_require_file o)
     then Raise (PyException ("File does not exist: " +:+ the_path o))
     else Ok (Provider (the_path o) ∅)).
Proof.
  intros H. unfold init, bind, os_path_exists. fold (the_path o).
  rewrite H. rewrite bool_decide_false by (by intros [? ?]). simpl.
  by destruct (default false (opt_require_file o)).
Qed.

Lemma init_present (o : options) (w : world) (text : string) :
  files w !! the_path o = Some text →
  init o w =
    ([EvExists (the_path o); EvOpen (the_path o)],
     match read_lines ∅ (lines text) with
     | Ok vs => Ok (Provider (the_path o) vs)
     | Raise e => Raise e
     end).
Proof.
  intros H. unfold init, bind, os_path_exists. fold (the_path o).
  rewrite H. rewrite bool_decide_true by eauto. simpl.
  unfold _read_file, bind, open_lines, lift, ret. rewrite H.
  by destruct (read_lines ∅ (lines text)).
Qed.

End FileFacts.

Section FileProviderProperties.
Import Text EnvFileProvider.

Lemma blank_no_eq (w : string) : blank w = true → contains "=" w = false.
Proof.
  induction w as [|c w IH]; simpl; [done|].
  intros [Hc Hw]%andb_true_iff. rewrite (IH Hw), orb_false_r.
  apply bool_decide_false. by intros ->.
Qed.

Lemma blank_app_hash (w rest : string) :
  blank (w +:+ String "#" rest) = false.
Proof.
  induction w as [|c w IH]; [done|].
  rewrite ?sapp_cons. simpl. by rewrite IH, andb_false_r.
Qed.

Lemma entries_map_foldl (items : list (option (string * string))) :
  entries_map items = foldl put ∅ items.
Proof. rewrite foldl_put. unfold entries_map, list_to_map. f_equal. Qed.

Lemma foldl_put_other (m : gmap string string)
    (items : list (option (string * string))) (k : string) :
  (∀ v, Some (k, v) ∉ items) → foldl put m items !! k = m !! k.
Proof.
  revert m. induction items as [|[[k' v']|] items IH]; simpl; intros m H.
  - done.
  - rewrite IH by (intros v Hv; apply (H v); by right).
    apply lookup_insert_ne. intros ->. apply (H v'). by left.
  - apply IH. intros v Hv. apply (H v). by right.
Qed.

Lemma foldl_put_keeps (m : gmap string string)
    (items : list (option (string * string))) (k : string) :
  is_Some (m !! k) → is_Some (foldl put m items !! k).
Proof.
  revert m. induction items as [|[[k' v']|] items IH]; simpl; intros m H.
  - done.
  - apply IH. destruct (decide (k' = k)) as [->|Hne].
    + rewrite lookup_insert_eq. eauto.
    + by rewrite lookup_insert_ne.
  - by apply IH.
Qed.

Lemma foldl_put_dom (m : gmap string string)
    (items : list (option (string * string))) (k : string) :
  is_Some (foldl put m items !! k) ↔
  is_Some (m !! k) ∨ ∃ v, Some (k, v) ∈ items.
Proof.
  revert m. induction items as [|[[k' v']|] items IH]; simpl; intros m.
  - split; [by left|]. intros [H|[v Hv]]; [done|]. by apply elem_of_nil in Hv.
  - rewrite IH. destruct (decide (k' = k)) as [->|Hne].
    + rewrite lookup_insert_eq. split.
      * intros _. right. exists v'. by left.
      * intros _. left. eauto.
    + rewrite lookup_insert_ne by done. split.
      * intros [H|[v Hv]]; [by left|]. right. exists v. by right.
      * intros [H|[v Hv]]; [by left|]. right. exists v.
        apply elem_of_cons in Hv as [Hv|Hv]; [congruence|done].
  - rewrite IH. split.
    + intros [H|[v Hv]]; [by left|]. right. exists v. by right.
    + intros [H|[v Hv]]; [by left|]. right. exists v.
      by apply elem_of_cons in Hv as [Hv|Hv].
Qed.

Lemma get_values (p : t) (key : string) (w : world) :
  get p key w =
    ([], match values p !! key with
         | Some v => Ok v
         | None => Raise (KeyError None)
         end).
Proof. unfold get. by destruct (values p !! key). Qed.

Lemma init_denotes (o : options) (w : world) (text : string)
    (items : list (option (string * string))) :
  files w !! the_path o = Some text →
  Forall2 denotes (lines text) items →
  init o w =
    ([EvExists (the_path o); EvOpen (the_path o)],
     Ok (Provider (the_path o) (entries_map items))).
Proof.
  intros Hf Hd. rewrite (init_present o w text Hf).
  by rewrite (read_lines_entries _ _ Hd).
Qed.

Lemma init_malformed (o : options) (w : world) (text line : string) :
  files w !! the_path o = Some text →
  line ∈ lines text →
  startswith line "#" = false → blank line = false →
  contains "=" line = false →
  init o w = ([EvExists (the_path o); EvOpen (the_path o)], Raise ValueError).
Proof.
  intros Hf Hin Hc Hb He. rewrite (init_present o w text Hf).
  rewrite (read_lines_malformed ∅ _ line); try done.
  intros Hs%strip_nil_blank. congruence.
Qed.

(** Every file that loads is a sequence of comments, blank lines and
    entries, and is loaded as such. *)
Lemma init_loaded (o : options) (w : world) (text : string)
    (tr : list event) (p : t) :
  files w !! the_path o = Some text →
  init o w = (tr, Ok p) →
  ∃ items, Forall2 denotes (lines text) items ∧ values p = entries_map items.
Proof.
  intros Hf. rewrite (init_present o w text Hf).
  destruct (read_lines ∅ (lines text)) as [vs|] eqn:Hr; [|done].
  intros [= _ <-].
  destruct (read_lines_complete _ _ _ Hr) as (items & Hd).
  exists items. split; [done|].
  rewrite (read_lines_entries _ _ Hd) in Hr. by simplify_eq.
Qed.

(** C5: when no file exists at the path, construction with
    [require_file] true raises the file-must-exist exception, and
    construction with [require_file] false or absent succeeds with an
    empty value set, on which every [get] raises the providers' not-found
    [KeyError]. *)
Theorem missing_file_construction (o : options) (w : world) :
  files w !! the_path o = None →
  (opt_require_file o = Some true →
     init o w =
       ([EvExists (the_path o)],
        Raise (PyException ("File does not exist: " +:+ the_path o))))
  ∧ (opt_require_file o = Some false ∨ opt_require_file o = None →
     ∃ p, init o w = ([EvExists (the_path o)], Ok p)
          ∧ values p = ∅
          ∧ ∀ key w', get p key w' = ([], Raise (KeyError None))).
Proof.
  intros H. rewrite (init_missing o w H). split.
  - by intros ->.
  - intros Hr. exists (Provider (the_path o) ∅).
    split; [by destruct Hr as [-> | ->]|]. split; [done|].
    intros key w'. by rewrite get_values.
Qed.

(** C6: a file whose lines are comments, blank lines and [KEY=VALUE]
    lines with whitespace around key and value is loaded into exactly
    the mapping of its trimmed keys to their trimmed values, and [get]
    of a stored key returns the trimmed value. *)
Theorem env_file_round_trip (o : options) (w : world) (text : string)
    (items : list (option (string * string))) :
  files w !! the_path o = Some text →
  Forall2 denotes (lines text) items →
  ∃ p, init o w = ([EvExists (the_path o); EvOpen (the_path o)], Ok p)
       ∧ values p = entries_map items
       ∧ (∀ k, is_Some (values p !! k) ↔ ∃ v, Some (k, v) ∈ items)
       ∧ (∀ k v w', values p !! k = Some v → get p k w' = ([], Ok v)).
Proof.
  intros Hf Hd. rewrite (init_denotes o w text items Hf Hd).
  eexists. split; [done|]. split; [done|]. split.
  - intros k. simpl. rewrite entries_map_foldl, foldl_put_dom.
    rewrite lookup_empty. split; [intros [[? ?]|?]; done | by right].
  - intros k v w' Hk. by rewrite get_values, Hk.
Qed.

(** C7: an existing file with a line that is not blank, does not start
    with [#] and has no [=] makes construction raise. *)
Theorem malformed_line_fatal (o : options) (w : world) (text line : string) :
  files w !! the_path o = Some text →
  line ∈ lines text →
  startswith line "#" = false → blank line = false →
  contains "=" line = false →
  init o w = ([EvExists (the_path o); EvOpen (the_path o)], Raise ValueError).
Proof. apply init_malformed. Qed.

(** C8: construction, successful or not, opens the file at most once,
    and afterwards no
    sequence of [get] calls accesses the outside at all: whatever the
    file system has become, every call answers as in the world of the
    construction. *)
Theorem snapshot_at_construction (o : options) (w0 : world) :
  (length (filter (λ e, is_open e = true) (init o w0).1) ≤ 1)%nat
  ∧ ∀ p : t,
      (init o w0).2 = Ok p →
      ∀ calls : list (world * string),
        gets p calls = ([], (λ c, (get p c.2 w0).2) <$> calls).
Proof.
  split.
  - destruct (files w0 !! the_path o) as [text|] eqn:Hf.
    + rewrite (init_present o w0 text Hf). simpl. lia.
    + rewrite (init_missing o w0 Hf). simpl. lia.
  - intros p _ calls.
    induction calls as [|[w key] calls IH]; simpl; [done|].
    by rewrite IH, !get_values.
Qed.

(** C9: a line whose [#] comes after leading whitespace is not a
    comment.  Without [=] it makes construction raise; with [=] the loop
    stores it under a key that begins with [#], and a file holding it,
    once loaded, has that key. *)
Theorem indented_hash_not_comment (ws rest : string) :
  blank ws = true → ws ≠ "" →
  let line := ws +:+ String "#" rest in
  (contains "=" rest = false →
     ∀ o w text,
       files w !! the_path o = Some text → line ∈ lines text →
       init o w =
         ([EvExists (the_path o); EvOpen (the_path o)], Raise ValueError))
  ∧ (∀ b a, cut "=" rest = Some (b, a) →
       let key := strip (String "#" b) in
       startswith key "#" = true
       ∧ (∀ m, read_line m line = Ok (<[key := strip a]> m))
       ∧ ∀ o w text tr p,
           files w !! the_path o = Some text → line ∈ lines text →
           init o w = (tr, Ok p) → is_Some (values p !! key)).
Proof.
  intros Hws Hne line.
  assert (startswith line "#" = false) as Hc.
  { subst line. destruct ws as [|c ws]; [done|]. rewrite ?sapp_cons. simpl.
    apply andb_true_iff in Hws as [Hcs _].
    apply bool_decide_false. by intros ->. }
  split.
  - intros He o w text Hf Hin.
    apply (init_malformed o w text line); try done.
    + apply blank_app_hash.
    + subst line. rewrite contains_app, (blank_no_eq _ Hws). simpl.
      by rewrite He.
  - intros b a Hcut key.
    assert (∀ m, read_line m line = Ok (<[key := strip a]> m)) as Hline.
    { intros m. apply cut_Some in Hcut as [-> Hb].
      rewrite (read_line_entry m line (ws +:+ String "#" b) a Hc).
      - unfold key, strip. by rewrite lstrip_blank.
      - subst line. rewrite <- (sapp_cons "#" b), <- sapp_assoc.
        apply cut_app. rewrite contains_app, (blank_no_eq _ Hws). simpl.
        by rewrite Hb. }
    split; [|split; [done|]].
    + unfold key, strip. simpl lstrip.
      by rewrite rstrip_cons_nonspace.
    + intros o w text tr p Hf Hin Hi.
      rewrite (init_present o w text Hf) in Hi.
      destruct (read_lines ∅ (lines text)) as [vs|] eqn:Hr; [|done].
      simplify_eq. simpl. revert Hr. generalize (∅ : gmap string string).
      induction Hin as [l ls | l l' ls Hin IH]; simpl; intros m.
      * rewrite Hline. intros Hr.
        assert (∀ ls m, is_Some (m !! key) → read_lines m ls = Ok vs →
                        is_Some (vs !! key)) as Hkeep.
        { clear. induction ls as [|l ls IH]; simpl; intros m Hm.
          - by intros [= <-].
          - unfold read_line. destruct (_ || _); [by apply IH|].
            destruct (split1 "=" (strip l)) as [|k [|v [|]]]; try done.
            apply IH. destruct (decide (strip k = key)) as [->|Hk].
            + rewrite lookup_insert_eq. eauto.
            + by rewrite lookup_insert_ne. }
        eapply Hkeep; [|exact Hr]. rewrite lookup_insert_eq. eauto.
      * destruct (read_line m l'); [by apply IH | done].
Qed.

(** C10: when a key is set on several lines, the loaded mapping holds
    the value of the last of them. *)
Theorem last_line_wins (o : options) (w : world) (text : string)
    (before between after : list (option (string * string)))
    (k v1 v2 : string) :
  files w !! the_path o = Some text →
  Forall2 denotes (lines text)
    (before ++ Some (k, v1) :: between ++ Some (k, v2) :: after) →
  (∀ v, Some (k, v) ∉ after) →
  ∃ p, init o w = ([EvExists (the_path o); EvOpen (the_path o)], Ok p)
       ∧ values p !! k = Some v2
       ∧ ∀ w', get p k w' = ([], Ok v2).
Proof.
  intros Hf Hd Hafter.
  rewrite (init_denotes o w text _ Hf Hd).
  eexists. split; [done|].
  match goal with |- ?a ∧ _ => assert a as Hk end.
  { simpl. rewrite entries_map_foldl.
    rewrite foldl_app. simpl. rewrite foldl_app. simpl.
    rewrite foldl_put_other by done. apply lookup_insert_eq. }
  split; [done|]. intros w'. by rewrite get_values, Hk.
Qed.

End FileProviderProperties.

(** ** The reader *)
Section ReaderProperties.
Import VariableReader.

Context {callable : Type}.
Variable apply_fn : callable → value callable → result (value callable).
Variable builtin_str builtin_int : value callable → result (value callable).

Local Abbreviation value := (value callable).
Local Abbreviation provider := (provider callable).
Local Abbreviation call := (call callable apply_fn builtin_str builtin_int).
Local Abbreviation convert := (convert callable builtin_str builtin_int).
Local Abbreviation get := (get callable apply_fn builtin_str builtin_int).
Local Abbreviation typed_get := (typed_get callable apply_fn builtin_str builtin_int).
Local Abbreviation bool_ := (bool_ callable apply_fn builtin_str builtin_int).
Local Abbreviation str_ := (str_ callable apply_fn builtin_str builtin_int).
Local Abbreviation int_ := (int_ callable apply_fn builtin_str builtin_int).

Lemma first_value_cons_absent (key : string) (w : world) (p : provider)
    (ps : list provider) :
  absent key w p →
  first_value (p :: ps) key w =
    ((provider_get p key w).1 ++ (first_value ps key w).1,
     (first_value ps key w).2).
Proof.
  intros [a Ha]. simpl. unfold except_KeyError.
  destruct (provider_get p key w) as [tr r]. simpl in Ha. subst r.
  by destruct (first_value ps key w).
Qed.

Lemma first_value_cons_stop (key : string) (w : world) (p : provider)
    (ps : list provider) (r : result value) :
  (provider_get p key w).2 = r →
  match r with Ok _ => True | Raise e => is_KeyError e = false end →
  first_value (p :: ps) key w = ((provider_get p key w).1, r).
Proof.
  intros Hr Hk. simpl. unfold except_KeyError.
  destruct (provider_get p key w) as [tr r']. simpl in *. subst r'.
  by destruct r as [v|[]].
Qed.

Lemma first_value_absent (key : string) (w : world) (ps : list provider) :
  Forall (absent key w) ps →
  first_value ps key w = (accesses key w ps, Ok Empty).
Proof.
  induction 1 as [|p ps Hp _ IH]; [done|].
  by rewrite first_value_cons_absent, IH.
Qed.

Lemma first_value_first (key : string) (w : world)
    (pre : list provider) (p : provider) (post : list provider)
    (r : result value) :
  Forall (absent key w) pre →
  (provider_get p key w).2 = r →
  match r with Ok _ => True | Raise e => is_KeyError e = false end →
  first_value (pre ++ p :: post) key w =
    (accesses key w pre ++ (provider_get p key w).1, r).
Proof.
  intros Hpre Hr Hk. induction Hpre as [|q pre Hq _ IH]; simpl app.
  - by apply first_value_cons_stop.
  - rewrite first_value_cons_absent, IH by done. unfold accesses. simpl.
    by rewrite (assoc_L (++)).
Qed.

Lemma get_unfold (self : t callable) (key : string)
    (default callback : value) (w : world) :
  get self key default callback w =
    match first_value (providers self) key w with
    | (tr, Ok v) =>
        (tr,
         if is_empty v then
           if is_empty default then Raise (KeyError (Some key))
           else Ok default
         else if negb (is_empty callback) then call callback v
         else Ok v)
    | (tr, Raise e) => (tr, Raise e)
    end.
Proof.
  unfold VariableReader.get, bind.
  destruct (first_value (providers self) key w) as [tr [v|e]]; [|done].
  destruct (is_empty v); [destruct (is_empty default)|
                          destruct (is_empty callback)];
    simpl; by rewrite ?app_nil_r.
Qed.

Lemma is_empty_false (v : value) : v ≠ Empty → is_empty v = false.
Proof. by destruct v. Qed.

(** [_empty] is also what [get] starts from, so a provider that hands
    back that very object is taken for one that found nothing: the loop
    stops there and [get] goes on as for an absent key.  This is why
    [resolves] asks for a value other than [_empty]. *)
Lemma sentinel_value_not_found (p : provider) (ps : list provider)
    (key : string) (default callback : value) (w : world) :
  (provider_get p key w).2 = Ok Empty →
  get (Reader (p :: ps)) key default callback w =
    ((provider_get p key w).1,
     if is_empty default then Raise (KeyError (Some key)) else Ok default).
Proof.
  intros Hp. rewrite get_unfold. simpl providers.
  by rewrite (first_value_cons_stop key w p ps (Ok Empty)).
Qed.

(** C2: when every provider raises its not-found [KeyError] for the
    key, [get] without a default raises [KeyError(key)], and with a
    default [get] and the three typed accessors return that default
    itself, whatever the callback and the conversion are. *)
Theorem absent_key_default (self : t callable) (key : string) (w : world)
    (callback : value) :
  Forall (absent key w) (providers self) →
  get self key Empty callback w =
    (accesses key w (providers self), Raise (KeyError (Some key)))
  ∧ ∀ default, default ≠ Empty →
      let found := (accesses key w (providers self), Ok default) in
      get self key default callback w = found
      ∧ str_ self key default callback w = found
      ∧ int_ self key default callback w = found
      ∧ bool_ self key default callback w = found.
Proof.
  intros Habs. split.
  - by rewrite get_unfold, first_value_absent.
  - intros default Hd%is_empty_false found.
    unfold VariableReader.str_, VariableReader.int_, VariableReader.bool_,
      VariableReader.typed_get.
    rewrite !get_unfold, first_value_absent by done. simpl.
    by rewrite Hd.
Qed.

(** C3: providers are asked in the order of the reader's list; the
    first one that does not raise [KeyError] decides, so its value is
    returned whatever the later providers hold (they are not asked); a
    provider's [KeyError] only passes the question on to the rest, and
    any other exception ends the lookup. *)
Theorem earlier_provider_wins (key : string) (w : world)
    (default : value) :
  (∀ pre p post v,
     Forall (absent key w) pre → resolves key w p v →
     get (Reader (pre ++ p :: post)) key default Empty w =
       (accesses key w pre ++ (provider_get p key w).1, Ok v))
  ∧ (∀ p ps callback,
       absent key w p →
       get (Reader (p :: ps)) key default callback w =
         ((provider_get p key w).1
            ++ (get (Reader ps) key default callback w).1,
          (get (Reader ps) key default callback w).2))
  ∧ (∀ pre p post callback e,
       Forall (absent key w) pre →
       (provider_get p key w).2 = Raise e → is_KeyError e = false →
       get (Reader (pre ++ p :: post)) key default callback w =
         (accesses key w pre ++ (provider_get p key w).1, Raise e)).
Proof.
  split; [|split].
  - intros pre p post v Hpre [Hv Hne].
    rewrite get_unfold. simpl.
    rewrite (first_value_first key w pre p post (Ok v)) by done.
    by rewrite (is_empty_false v Hne).
  - intros p ps callback Hp. rewrite !get_unfold. simpl providers.
    rewrite first_value_cons_absent by done.
    by destruct (first_value ps key w) as [tr [v|e]].
  - intros pre p post callback e Hpre He Hk.
    rewrite get_unfold. simpl.
    by rewrite (first_value_first key w pre p post (Raise e)).
Qed.

(** What the typed accessors return for a key some provider resolves. *)
Lemma typed_get_found (key : string) (w : world)
    (pre : list provider) (p : provider) (post : list provider)
    (v default callback : value) (t : conversion) :
  Forall (absent key w) pre → resolves key w p v →
  typed_get (Reader (pre ++ p :: post)) key default callback t w =
    (accesses key w pre ++ (provider_get p key w).1,
     if is_empty callback then convert t v
     else Ok (InnerLambda t callback)).
Proof.
  intros Hpre [Hv Hne]. unfold VariableReader.typed_get.
  rewrite get_unfold. simpl providers.
  rewrite (first_value_first key w pre p post (Ok v)) by done.
  by rewrite (is_empty_false v Hne).
Qed.

(** The function a typed accessor hands back when given a callback is
    the composition that was meant to be applied. *)
Lemma call_InnerLambda (t : conversion) (callback x : value) :
  call (InnerLambda t callback) x =
    match convert t x with
    | Ok u => call callback u
    | Raise e => Raise e
    end.
Proof. done. Qed.

End ReaderProperties.

(** ** The boolean conversion *)

Section BoolConversion.
Import Text VariableReader.

Context {callable : Type}.

Lemma lower_char_word (d c : ascii) :
  d ∈ word_chars →
  bool_decide (lower_char c = d) = bool_decide (ascii_upper c = ascii_upper d).
Proof.
  unfold word_chars. intros Hd.
  repeat (apply elem_of_cons in Hd as [->|Hd]);
    [..|by apply elem_of_nil in Hd];
    by destruct c as [[] [] [] [] [] [] [] []].
Qed.

Lemma lower_word (w s : string) :
  Forall (λ d, d ∈ word_chars) (chars w) →
  bool_decide (lower s = w) = same_ignoring_case s w.
Proof.
  revert s. induction w as [|d w IH]; intros [|c s] Hw; simpl; try done.
  apply Forall_cons in Hw as [Hd Hw].
  rewrite <- (lower_char_word d c Hd), <- (IH s Hw).
  repeat case_bool_decide; by simplify_eq/=.
Qed.

Lemma truthy_words (x : string) :
  x ∈ truthy ↔ x = "y" ∨ x = "yes" ∨ x = "true" ∨ x = "1".
Proof. unfold truthy. set_solver. Qed.

Lemma lower_truthy (s : string) :
  bool_decide (lower s ∈ truthy) = existsb (same_ignoring_case s) true_words.
Proof.
  unfold true_words. simpl. rewrite orb_false_r.
  rewrite <- !lower_word
    by (unfold word_chars; repeat constructor; set_solver).
  rewrite (bool_decide_ext _ _ (truthy_words (lower s))).
  repeat case_bool_decide; simpl; try done; naive_solver.
Qed.

(** C4: the boolean conversion.  A text is true exactly when, case
    aside, it is one of y, yes, true, 1, and false otherwise, never an
    error; a boolean is returned as it is; an integer is true exactly
    when it is 1; every other object raises [TypeError]. *)
Theorem value_to_bool_table :
  (∀ s, @value_to_bool callable (Str s) =
          Ok (Bool (existsb (same_ignoring_case s) true_words)))
  ∧ (∀ b, @value_to_bool callable (Bool b) = Ok (Bool b))
  ∧ (∀ z, @value_to_bool callable (Int z) = Ok (Bool (bool_decide (z = 1))))
  ∧ (@value_to_bool callable (Int 0) = Ok (Bool false)
     ∧ @value_to_bool callable (Int 2) = Ok (Bool false)
     ∧ @value_to_bool callable (Int (-1)) = Ok (Bool false))
  ∧ (∀ v : value callable,
       match v with
       | Str _ | Bool _ | Int _ => True
       | _ => value_to_bool v = Raise TypeError
       end)
  ∧ @value_to_bool callable (Other "float") = Raise TypeError.
Proof.
  split; [|split; [|split; [|split; [|split]]]].
  - intros s. simpl. by rewrite lower_truthy.
  - done.
  - intros z. simpl. do 2 f_equal.
    case_bool_decide as Hz; [by subst|]. by apply Z.eqb_neq.
  - done.
  - by intros [].
  - done.
Qed.

End BoolConversion.

(** ** Concrete runs *)
Section Runs.
Import Text VariableReader EnvFileProvider Sample.

(** C1: on the code, a typed accessor given a callback does not return
    [callback(conversion(value))].  With [PORT=8080] in the environment,
    [reader.int("PORT", callback=lambda n: n + 1)] evaluates to the inner
    lambda, a function, where the composition gives 8081; calling that
    function on the found text is what would give 8081.  The [str] and
    [bool] accessors do the same. *)
Theorem typed_accessor_returns_function :
  Sample.int_ env_only "PORT" Empty (Fn add_one) w_env
    = ([EvEnviron "PORT"], Ok (InnerLambda to_int (Fn add_one)))
  ∧ is_function (InnerLambda to_int (Fn add_one)) = true
  ∧ Sample.builtin_int (Str "8080") = Ok (Int 8080)
  ∧ Sample.call (Fn add_one) (Int 8080) = Ok (Int 8081)
  ∧ Sample.call (InnerLambda to_int (Fn add_one)) (Str "8080")
      = Ok (Int 8081)
  ∧ Sample.str_ env_only "A" Empty (Fn shout) w_env
      = ([EvEnviron "A"], Ok (InnerLambda to_str (Fn shout)))
  ∧ Sample.bool_ env_only "A" Empty (Fn shout) w_env
      = ([EvEnviron "A"], Ok (InnerLambda to_bool (Fn shout))).
Proof. repeat split; reflexivity. Qed.

(** Without a callback the conversion is applied. *)
Example int_without_callback :
  Sample.int_ env_only "PORT" Empty Empty w_env
    = ([EvEnviron "PORT"], Ok (Int 8080)).
Proof. reflexivity. Qed.

Lemma absent_key_default_witness :
  Forall (absent "X" w_bare) (providers env_only)
  ∧ Sample.get env_only "X" Empty Empty w_bare
      = ([EvEnviron "X"], Raise (KeyError (Some "X")))
  ∧ Sample.int_ env_only "X" (Str "5") (Fn add_one) w_bare
      = ([EvEnviron "X"], Ok (Str "5")).
Proof.
  assert (Forall (absent "X" w_bare) (providers env_only)) as Habs.
  { repeat constructor. by exists None. }
  split; [exact Habs|]. split.
  - exact (proj1 (absent_key_default Sample.apply_fn Sample.builtin_str
             Sample.builtin_int env_only "X" w_bare Empty Habs)).
  - destruct (absent_key_default Sample.apply_fn Sample.builtin_str
                Sample.builtin_int env_only "X" w_bare (Fn add_one) Habs)
      as [_ Hd].
    destruct (Hd (Str "5")) as (_ & _ & Hint & _); [done|].
    exact Hint.
Defined.

Lemma earlier_provider_wins_witness :
  resolves "A" w_env (@environ_provider fn) (Str "env")
  ∧ resolves "A" w_env (@file_provider fn file_A) (Str "file")
  ∧ Sample.get (Reader [environ_provider; file_provider file_A]) "A"
      Empty Empty w_env
      = ([EvEnviron "A"], Ok (Str "env")).
Proof.
  assert (resolves "A" w_env (@environ_provider fn) (Str "env")) as Henv
    by (by split).
  split; [exact Henv|]. split; [by split|].
  destruct (earlier_provider_wins Sample.apply_fn Sample.builtin_str
              Sample.builtin_int "A" w_env Empty) as [Hfirst _].
  exact (Hfirst [] environ_provider [file_provider file_A] (Str "env")
           (Forall_nil_2 _) Henv).
Defined.

Lemma missing_file_construction_witness :
  files w_bare !! the_path required = None
  ∧ init required w_bare
      = ([EvExists "/tmp/x.env"],
         Raise (PyException "File does not exist: /tmp/x.env"))
  ∧ ∃ p, init no_options w_bare = ([EvExists ".env"], Ok p)
         ∧ EnvFileProvider.get p "A" w_env = ([], Raise (KeyError None)).
Proof.
  split; [reflexivity|]. split.
  - exact (proj1 (missing_file_construction required w_bare eq_refl)
             eq_refl).
  - destruct (proj2 (missing_file_construction no_options w_bare eq_refl)
                (or_intror eq_refl)) as (p & Hi & _ & Hget).
    exists p. split; [exact Hi | exact (Hget "A" w_env)].
Defined.

(** The default reader of the scenario: the file provider is part of
    it, so a missing required file stops the construction. *)
Example default_reader_requires_file :
  (VariableReader.init fn [] {[ "env_file" := required ]} w_bare).2
    = Raise (PyException "File does not exist: /tmp/x.env").
Proof. reflexivity. Qed.

Lemma env_text_denotes : Forall2 denotes (lines env_text) env_items.
Proof.
  vm_compute.
  constructor; [apply denotes_comment|].
  constructor; [by apply denotes_blank|].
  constructor; [by apply (denotes_entry "" "A" "" "" "1" nl)|].
  constructor; [by apply (denotes_entry "" "B" " " " " "2" nl)|].
  constructor.
Defined.

Lemma env_file_round_trip_witness :
  ∃ p, init no_options w_env = ([EvExists ".env"; EvOpen ".env"], Ok p)
       ∧ values p = {[ "A" := "1"; "B" := "2" ]}
       ∧ EnvFileProvider.get p "B" w_bare = ([], Ok "2").
Proof.
  destruct (env_file_round_trip no_options w_env env_text env_items
              eq_refl env_text_denotes) as (p & Hi & Hv & _ & Hget).
  exists p. split; [exact Hi|]. split; [exact Hv|].
  apply Hget. rewrite Hv. reflexivity.
Defined.

(** The round trip of the one-line file. *)
Example key_value_round_trip :
  (p <- init (Options (Some "conf") None) ;; EnvFileProvider.get p "KEY")
    (World ∅ {[ "conf" := unlines ["KEY = value  "] ]})
  = ([EvExists "conf"; EvOpen "conf"], Ok "value").
Proof. reflexivity. Qed.

Lemma malformed_line_fatal_witness :
  init no_options w_broken
    = ([EvExists ".env"; EvOpen ".env"], Raise ValueError).
Proof.
  apply (malformed_line_fatal no_options w_broken broken_text
           ("BROKEN" +:+ nl)); try reflexivity.
  apply list_elem_of_further, list_elem_of_here.
Defined.

Lemma snapshot_at_construction_witness :
  init no_options w_env
    = ([EvExists ".env"; EvOpen ".env"],
       Ok (Provider ".env" {[ "A" := "1"; "B" := "2" ]}))
  ∧ gets (Provider ".env" {[ "A" := "1"; "B" := "2" ]})
      [(w_rewritten, "A"); (w_bare, "A"); (w_rewritten, "C")]
      = ([], [Ok "1"; Ok "1"; Raise (KeyError None)]).
Proof.
  split; [reflexivity|].
  exact (proj2 (snapshot_at_construction no_options w_env) _ eq_refl _).
Defined.

Lemma indented_hash_not_comment_witness :
  init no_options w_indented
    = ([EvExists ".env"; EvOpen ".env"], Raise ValueError)
  ∧ read_line ∅ ("  # a = b" +:+ nl) = Ok {[ "# a" := "b" ]}.
Proof.
  split.
  - apply (proj1 (indented_hash_not_comment "  " (" note" +:+ nl)
                    eq_refl ltac:(done))
             eq_refl no_options w_indented indented_text eq_refl).
    apply list_elem_of_further, list_elem_of_here.
  - destruct (proj2 (indented_hash_not_comment "  " (" a = b" +:+ nl)
                       eq_refl ltac:(done)) " a " (" b" +:+ nl) eq_refl)
      as (_ & Hline & _).
    exact (Hline ∅).
Defined.

Lemma last_line_wins_witness :
  ∃ p, init no_options w_twice = ([EvExists ".env"; EvOpen ".env"], Ok p)
       ∧ values p !! "A" = Some "2".
Proof.
  destruct (last_line_wins no_options w_twice twice_text [] [Some ("B", "0")]
              [] "A" "1" "2" eq_refl) as (p & Hi & Hv & _).
  - vm_compute.
    constructor; [by apply (denotes_entry "" "A" "" "" "1" nl)|].
    constructor; [by apply (denotes_entry "" "B" "" "" "0" nl)|].
    constructor; [by apply (denotes_entry "" "A" " " " " "2" nl)|].
    constructor.
  - intros v Hv. by apply elem_of_nil in Hv.
  - exists p. by split.
Defined.

End Runs.

(** * Further properties *)

(** ** The environment provider *)
Section EnvironProperties.

Lemma environ_get_eq (key : string) (w : world) :
  EnvVariablesProvider.get key w =
    ([EvEnviron key],
     match environ w !! key with
     | Some s => Ok s
     | None => Raise (KeyError None)
     end).
Proof.
  unfold EnvVariablesProvider.get, bind, os_environ_get.
  by destruct (environ w !! key).
Qed.

(** X1: the environment provider answers from the environment as it is
    when [get] is called: a key just set is found with its new value, a
    key just removed is not found, setting one key leaves the others as
    they were, and the files play no part. *)
Theorem environ_get_live (key v : string) (w : world) :
  EnvVariablesProvider.get key (setenv key v w) = ([EvEnviron key], Ok v)
  ∧ EnvVariablesProvider.get key (unsetenv key w)
      = ([EvEnviron key], Raise (KeyError None))
  ∧ (∀ key', key' ≠ key →
       EnvVariablesProvider.get key' (setenv key v w)
         = EnvVariablesProvider.get key' w)
  ∧ ∀ fs, EnvVariablesProvider.get key (World (environ w) fs)
            = EnvVariablesProvider.get key w.
Proof.
  rewrite !environ_get_eq. unfold setenv, unsetenv. simpl.
  split; [|split; [|split]].
  - by rewrite lookup_insert_eq.
  - by rewrite lookup_delete_eq.
  - intros key' Hne. rewrite !environ_get_eq. simpl.
    by rewrite lookup_insert_ne by congruence.
  - intros fs. by rewrite !environ_get_eq.
Qed.

End EnvironProperties.

(** ** The file provider *)
Section FileProviderMore.
Import Text EnvFileProvider.


(** X3: [require_file] only matters when the file is missing: over an
    existing file, construction does the same whatever the flag. *)
Theorem require_file_only_when_missing (path : option string)
    (r1 r2 : option bool) (w : world) :
  is_Some (files w !! default ".env" path) →
  init (Options path r1) w = init (Options path r2) w.
Proof.
  intros [text Hf].
  by rewrite (init_present (Options path r1) w text Hf),
             (init_present (Options path r2) w text Hf).
Qed.

(** *** What the loaded mapping holds *)

Lemma nl_blank : blank (String "010" "") = true.
Proof. done. Qed.

Lemma strip_newline (l : string) : strip (l +:+ String "010" "") = strip l.
Proof.
  unfold strip. rewrite <- !lstrip_rstrip. by rewrite rstrip_blank.
Qed.

Lemma lines_shape (s l : string) :
  l ∈ lines s →
  ∃ body, contains "010" body = false
          ∧ (l = body ∨ l = body +:+ String "010" "").
Proof.
  revert l. induction s as [|c s IH]; simpl; intros l Hl.
  - by apply elem_of_nil in Hl.
  - case_bool_decide as Hc.
    + apply elem_of_cons in Hl as [->|Hl]; [|by apply IH].
      exists "". split; [done|]. right. by subst.
    + destruct (lines s) as [|l0 ls].
      * apply list_elem_of_singleton in Hl as ->.
        exists (String c ""). split; [|by left]. simpl.
        by rewrite bool_decide_false.
      * apply elem_of_cons in Hl as [->|Hl].
        -- destruct (IH l0) as (body & Hb & Hl0); [by left|].
           exists (String c body). split.
           ++ simpl. by rewrite bool_decide_false, Hb.
           ++ destruct Hl0 as [-> | ->]; [by left | by right].
        -- apply IH. by right.
Qed.

Lemma lines_strip_one_line (s l : string) :
  l ∈ lines s → contains "010" (strip l) = false.
Proof.
  intros (body & Hb & [-> | ->])%lines_shape; rewrite ?strip_newline;
    unfold strip; by apply contains_rstrip, contains_lstrip.
Qed.

(** What one turn of the loop does to the mapping. *)
Lemma read_line_step (m m' : gmap string string) (line : string) :
  read_line m line = Ok m' →
  m' = m ∨ ∃ k0 v0, cut "=" (strip line) = Some (k0, v0)
                    ∧ m' = <[strip k0 := strip v0]> m.
Proof.
  unfold read_line, split1. destruct (_ || _); [intros [= <-]; by left|].
  destruct (cut "=" (strip line)) as [[k0 v0]|]; [|done].
  intros [= <-]. right. eauto.
Qed.

Lemma tidy_strip (s : string) : contains "010" s = false → tidy (strip s).
Proof.
  intros H. split; [apply strip_trimmed|].
  unfold strip. by apply contains_rstrip, contains_lstrip.
Qed.

Lemma read_lines_clean (m m' : gmap string string) (ls : list string) :
  Forall (λ l, contains "010" (strip l) = false) ls →
  clean m → read_lines m ls = Ok m' → clean m'.
Proof.
  intros Hls. revert m. induction Hls as [|l ls Hl _ IH]; simpl; intros m Hm.
  - by intros [= <-].
  - destruct (read_line m l) as [m1|] eqn:Hr; [|done].
    apply IH. apply read_line_step in Hr as [->|(k0 & v0 & Hcut & ->)];
      [done|].
    apply cut_Some in Hcut as [Heq Hk0]. rewrite Heq in Hl.
    rewrite contains_app in Hl. apply orb_false_iff in Hl as [Hkn Hvn].
    simpl in Hvn.
    intros k v. destruct (decide (strip k0 = k)) as [<-|Hne].
    + rewrite lookup_insert_eq. intros [= <-].
      split; [by apply tidy_strip|]. split; [by apply tidy_strip|].
      unfold strip. by apply contains_rstrip, contains_lstrip.
    + rewrite lookup_insert_ne by done. apply Hm.
Qed.

(** X4: whatever file is loaded, every key and every value the provider
    holds is free of whitespace at both ends and of newlines, and no key
    holds an [=]. *)
Theorem loaded_entries_tidy (o : options) (w : world) (tr : list event)
    (p : t) (k v : string) :
  init o w = (tr, Ok p) → values p !! k = Some v →
  tidy k ∧ tidy v ∧ contains "=" k = false.
Proof.
  intros Hi. destruct (files w !! the_path o) as [text|] eqn:Hf.
  - rewrite (init_present o w text Hf) in Hi.
    destruct (read_lines ∅ (lines text)) as [vs|] eqn:Hr; [|done].
    injection Hi as _ <-. simpl.
    revert k v. eapply read_lines_clean;
      [|intros k' v'; by rewrite lookup_empty|exact Hr].
    apply Forall_forall. intros l Hl. by eapply lines_strip_one_line.
  - rewrite (init_missing o w Hf) in Hi.
    destruct (default false (opt_require_file o)); [done|].
    injection Hi as _ <-. simpl. by rewrite lookup_empty.
Qed.

(** A key some line sets is in the loaded mapping. *)
Lemma read_lines_keeps (m m' : gmap string string) (ls : list string)
    (k : string) :
  is_Some (m !! k) → read_lines m ls = Ok m' → is_Some (m' !! k).
Proof.
  revert m. induction ls as [|l ls IH]; simpl; intros m Hm.
  - by intros [= <-].
  - destruct (read_line m l) as [m1|] eqn:Hr; [|done].
    apply IH. apply read_line_step in Hr as [->|(k0 & v0 & _ & ->)]; [done|].
    destruct (decide (strip k0 = k)) as [->|Hne].
    + rewrite lookup_insert_eq. eauto.
    + by rewrite lookup_insert_ne.
Qed.

Lemma read_lines_sets (m m' : gmap string string) (ls : list string)
    (line k v : string) :
  line ∈ ls → (∀ m0, read_line m0 line = Ok (<[k := v]> m0)) →
  read_lines m ls = Ok m' → is_Some (m' !! k).
Proof.
  intros Hin Hline. revert m.
  induction Hin as [l ls | l l' ls Hin IH]; simpl; intros m.
  - rewrite Hline. apply read_lines_keeps. rewrite lookup_insert_eq. eauto.
  - destruct (read_line m l'); [by apply IH | done].
Qed.

(** X5: a line that has only whitespace before its [=] is not an error:
    it is stored under the empty key, so a file holding such a line, once
    loaded, answers [get("")]; likewise a line with only whitespace after
    the [=] stores the empty value. *)
Theorem empty_key_and_value (ws a b : string) :
  blank ws = true →
  (∀ m, read_line m (ws +:+ String "=" a) = Ok (<["" := strip a]> m))
  ∧ (∀ o w text tr p,
       files w !! the_path o = Some text →
       ws +:+ String "=" a ∈ lines text →
       init o w = (tr, Ok p) →
       ∃ v, get p "" w = ([], Ok v))
  ∧ (startswith b "#" = false → contains "=" b = false →
     ∀ m, read_line m (b +:+ String "=" ws) = Ok (<[strip b := ""]> m)).
Proof.
  intros Hws.
  assert (∀ m, read_line m (ws +:+ String "=" a) = Ok (<["" := strip a]> m))
    as Hline.
  { intros m.
    rewrite (read_line_entry m _ ws a).
    - by rewrite (proj2 (strip_nil_blank ws) Hws).
    - destruct ws as [|c ws]; [done|]. rewrite sapp_cons. simpl.
      apply andb_true_iff in Hws as [Hc _].
      apply bool_decide_false. by intros ->.
    - by apply cut_app, blank_no_eq. }
  split; [done|]. split.
  - intros o w text tr p Hf Hin Hi.
    rewrite (init_present o w text Hf) in Hi.
    destruct (read_lines ∅ (lines text)) as [vs|] eqn:Hr; [|done].
    injection Hi as _ <-.
    destruct (read_lines_sets _ _ _ _ _ _ Hin Hline Hr) as [v Hv].
    exists v. by rewrite get_values; simpl; rewrite Hv.
  - intros Hc Hb m.
    rewrite (read_line_entry m _ b ws).
    + by rewrite (proj2 (strip_nil_blank ws) Hws).
    + destruct b as [|c b]; [done|]. by rewrite sapp_cons.
    + by apply cut_app.
Qed.

(** X6: in a file with no key set twice, the order of the lines does
    not matter: two files whose lines denote the same entries in any
    order load into the same mapping. *)
Theorem line_order_irrelevant (o o' : options) (w w' : world)
    (text text' : string) (items items' : list (option (string * string))) :
  files w !! the_path o = Some text →
  files w' !! the_path o' = Some text' →
  Forall2 denotes (lines text) items →
  Forall2 denotes (lines text') items' →
  items ≡ₚ items' →
  NoDup (omap id items).*1 →
  ∃ p p', (init o w).2 = Ok p ∧ (init o' w').2 = Ok p'
          ∧ values p = values p'.
Proof.
  intros Hf Hf' Hd Hd' Hperm Hnd.
  rewrite (init_denotes o w text items Hf Hd),
          (init_denotes o' w' text' items' Hf' Hd').
  eexists _, _. split; [done|]. split; [done|]. simpl.
  unfold entries_map. apply list_to_map_proper.
  - by rewrite fmap_reverse, reverse_Permutation.
  - by rewrite !reverse_Permutation, Hperm.
Qed.

(** X7: a file of nothing but comments and blank lines (the empty file
    among them) loads into the empty mapping, on which every [get]
    raises the not-found [KeyError]. *)
Theorem comments_only_file (o : options) (w : world) (text : string) :
  files w !! the_path o = Some text →
  Forall skipped (lines text) →
  init o w
    = ([EvExists (the_path o); EvOpen (the_path o)], Ok (Provider (the_path o) ∅))
  ∧ ∀ key w', get (Provider (the_path o) ∅) key w'
                = ([], Raise (KeyError None)).
Proof.
  intros Hf Hs. rewrite (init_present o w text Hf).
  assert (read_lines ∅ (lines text) = Ok ∅) as ->.
  { generalize (∅ : gmap string string).
    induction Hs as [|l ls Hl _ IH]; simpl; intros m; [done|].
    by rewrite (read_line_skip m l Hl). }
  split; [done|]. intros key w'. by rewrite get_values.
Qed.

(** *** A newline at the end of the file *)

Lemma lines_snoc_newline (s : string) :
  lines (s +:+ String "010" "") = lines s ++ [String "010" ""]
  ∨ ∃ ls l, l ≠ "" ∧ lines s = ls ++ [l]
            ∧ lines (s +:+ String "010" "") = ls ++ [l +:+ String "010" ""].
Proof.
  induction s as [|c s IH]; [by left|].
  rewrite sapp_cons. simpl. case_bool_decide as Hc.
  - destruct IH as [-> | (ls & l & Hl & -> & ->)]; [by left|].
    right. by exists (String c "" :: ls), l.
  - destruct IH as [-> | (ls & l & Hl & -> & ->)].
    + destruct (lines s) as [|l0 ls0]; [|by left].
      right. by exists [], (String c "").
    + right. destruct ls as [|l0 ls].
      * by exists [], (String c l).
      * by exists (String c l0 :: ls), l.
Qed.

Lemma read_lines_app (m : gmap string string) (ls ls' : list string) :
  read_lines m (ls ++ ls') =
    match read_lines m ls with
    | Ok m' => read_lines m' ls'
    | Raise e => Raise e
    end.
Proof.
  revert m. induction ls as [|l ls IH]; simpl; intros m; [done|].
  by destruct (read_line m l).
Qed.

Lemma read_line_newline (m : gmap string string) (l : string) :
  l ≠ "" → read_line m (l +:+ String "010" "") = read_line m l.
Proof.
  intros Hl. unfold read_line.
  by rewrite strip_newline, (startswith_app l _ _ Hl).
Qed.

(** X8: one more newline at the end of the file changes nothing: the
    file with and without it construct the same provider. *)
Theorem final_newline_irrelevant (o : options) (w w' : world) (text : string) :
  files w !! the_path o = Some text →
  files w' !! the_path o = Some (text +:+ String "010" "") →
  init o w = init o w'.
Proof.
  intros Hf Hf'.
  rewrite (init_present o w text Hf), (init_present o w' _ Hf').
  do 2 f_equal.
  destruct (lines_snoc_newline text) as [-> | (ls & l & Hl & -> & ->)];
    rewrite !read_lines_app; destruct (read_lines ∅ _) as [m|]; try done;
    simpl; try done.
  by rewrite read_line_newline.
Qed.

End FileProviderMore.

(** ** The reader *)
Section ReaderMore.
Import VariableReader.

Context {callable : Type}.
Variable apply_fn : callable → value callable → result (value callable).
Variable builtin_str builtin_int : value callable → result (value callable).

Local Abbreviation value := (value callable).
Local Abbreviation provider := (provider callable).
Local Abbreviation provider_class := (provider_class callable).
Local Abbreviation call := (call callable apply_fn builtin_str builtin_int).
Local Abbreviation convert := (convert callable builtin_str builtin_int).
Local Abbreviation get := (get callable apply_fn builtin_str builtin_int).
Local Abbreviation typed_get := (typed_get callable apply_fn builtin_str builtin_int).
Local Abbreviation bool_ := (bool_ callable apply_fn builtin_str builtin_int).
Local Abbreviation str_ := (str_ callable apply_fn builtin_str builtin_int).
Local Abbreviation int_ := (int_ callable apply_fn builtin_str builtin_int).
Local Abbreviation instantiate := (instantiate callable).
Local Abbreviation init := (init callable).
Local Abbreviation new := (new callable).

(** X9: for a key some provider resolves, [get] with a function as
    callback gives exactly what that function returns or raises on the
    found value; the default is not looked at. *)
Theorem get_applies_callback (key : string) (w : world)
    (pre : list provider) (p : provider) (post : list provider)
    (v default : value) (c : callable) :
  Forall (absent key w) pre → resolves key w p v →
  get (Reader (pre ++ p :: post)) key default (Fn c) w =
    (accesses key w pre ++ (provider_get p key w).1, apply_fn c v).
Proof.
  intros Hpre [Hv Hne]. rewrite get_unfold. simpl providers.
  rewrite (first_value_first key w pre p post (Ok v)) by done.
  by rewrite (is_empty_false v Hne).
Qed.

(** X10: without a callback, [get] never hands the [_empty] object to
    its caller, whatever the providers do and whatever the default is. *)
Theorem get_never_returns_sentinel (self : t callable) (key : string)
    (default : value) (w : world) :
  (get self key default Empty w).2 ≠ Ok Empty.
Proof.
  rewrite get_unfold.
  destruct (first_value (providers self) key w) as [tr [v|e]]; [|done].
  simpl. destruct v; simpl; try done. by destruct default.
Qed.

(** X11: without a callback, a typed accessor returns the conversion of
    the found value, and raises what the conversion raises: [bool] gives
    [value_to_bool(value)], [str] gives [str(value)], [int] gives
    [int(value)]. *)
Theorem typed_accessor_converts (key : string) (w : world)
    (pre : list provider) (p : provider) (post : list provider)
    (v default : value) :
  Forall (absent key w) pre → resolves key w p v →
  let reader := Reader (pre ++ p :: post) in
  let log := accesses key w pre ++ (provider_get p key w).1 in
  bool_ reader key default Empty w = (log, value_to_bool v)
  ∧ str_ reader key default Empty w = (log, builtin_str v)
  ∧ int_ reader key default Empty w = (log, builtin_int v).
Proof.
  intros Hpre Hv reader log.
  unfold VariableReader.bool_, VariableReader.str_, VariableReader.int_.
  by rewrite !(typed_get_found apply_fn builtin_str builtin_int key w pre p
                 post v default Empty _ Hpre Hv).
Qed.

(** X12: with a callback, a typed accessor returns, for every found
    value, the closure [lambda v: callback(t(v))] itself: no conversion
    runs and nothing is raised at that point; it is calling the returned
    closure that converts and then applies the callback. *)
Theorem typed_accessor_returns_closure (key : string) (w : world)
    (pre : list provider) (p : provider) (post : list provider)
    (v default callback : value) (t : conversion) :
  Forall (absent key w) pre → resolves key w p v → callback ≠ Empty →
  typed_get (Reader (pre ++ p :: post)) key default callback t w =
    (accesses key w pre ++ (provider_get p key w).1,
     Ok (InnerLambda t callback))
  ∧ is_function (InnerLambda t callback) = true
  ∧ ∀ x, call (InnerLambda t callback) x =
           match convert t x with
           | Ok u => call callback u
           | Raise e => Raise e
           end.
Proof.
  intros Hpre Hv Hc.
  rewrite (typed_get_found apply_fn builtin_str builtin_int key w pre p post
             v default callback t Hpre Hv).
  by rewrite (is_empty_false callback Hc).
Qed.

(** *** Building the reader *)

Lemma instantiate_cons (c : provider_class) (cs : list provider_class)
    (options : gmap string EnvFileProvider.options) (w : world) :
  instantiate (c :: cs) options w =
    match new c (block_for options c) w with
    | (t1, Ok p) =>
        match instantiate cs options w with
        | (t2, Ok ps) => (t1 ++ t2, Ok (p :: ps))
        | (t2, Raise e) => (t1 ++ t2, Raise e)
        end
    | (t1, Raise e) => (t1, Raise e)
    end.
Proof.
  simpl. unfold bind, block_for.
  destruct (VariableReader.new _ c _ w) as [t1 [p|e]]; [|done].
  destruct (VariableReader.instantiate _ cs options w) as [t2 [ps|e]];
    simpl; by rewrite ?app_nil_r.
Qed.

Lemma init_unfold (classes : list provider_class)
    (options : gmap string EnvFileProvider.options) (w : world) :
  init classes options w =
    match instantiate (chosen classes) options w with
    | (tr, Ok ps) => (tr, Ok (Reader ps))
    | (tr, Raise e) => (tr, Raise e)
    end.
Proof.
  unfold VariableReader.init, bind, chosen.
  destruct (VariableReader.instantiate _ _ options w) as [tr [ps|e]];
    simpl; by rewrite ?app_nil_r.
Qed.



(** X14: the first provider constructor that raises ends the
    construction of the reader with that exception; the constructors of
    the classes after it are not run. *)
Theorem reader_construction_fails (classes pre post : list provider_class)
    (c : provider_class) (options : gmap string EnvFileProvider.options)
    (w : world) (e : exn) :
  chosen classes = pre ++ c :: post →
  Forall (λ c', ∃ p, (new c' (block_for options c') w).2 = Ok p) pre →
  (new c (block_for options c) w).2 = Raise e →
  init classes options w =
    (constructions options w pre ++ (new c (block_for options c) w).1,
     Raise e).
Proof.
  intros Hc Hpre He. rewrite init_unfold, Hc.
  assert (instantiate (pre ++ c :: post) options w =
          (constructions options w pre ++ (new c (block_for options c) w).1,
           Raise e)) as ->; [|done].
  clear Hc. induction Hpre as [|c' pre [p Hp] _ IH]; simpl app.
  - rewrite instantiate_cons.
    destruct (new c (block_for options c) w) as [t1 r]. simpl in He.
    by subst r.
  - rewrite instantiate_cons, IH. unfold constructions. simpl.
    destruct (new c' (block_for options c') w) as [t1 r].
    simpl in Hp. subst r. simpl. by rewrite (assoc_L (++)).
Qed.


(** *** The default reader *)

Lemma environ_provider_get (key : string) (w : world) :
  provider_get (@environ_provider callable) key w =
    ([EvEnviron key],
     match environ w !! key with
     | Some s => Ok (Str s)
     | None => Raise (KeyError None)
     end).
Proof.
  simpl. unfold bind. rewrite environ_get_eq.
  by destruct (environ w !! key).
Qed.

Lemma file_provider_get (p : EnvFileProvider.t) (key : string) (w : world) :
  provider_get (@file_provider callable p) key w =
    ([],
     match EnvFileProvider.values p !! key with
     | Some s => Ok (Str s)
     | None => Raise (KeyError None)
     end).
Proof.
  simpl. unfold bind, EnvFileProvider.get.
  by destruct (EnvFileProvider.values p !! key).
Qed.

Lemma first_value_default (p : EnvFileProvider.t) (key : string) (w : world) :
  first_value [environ_provider; file_provider p] key w =
    ([EvEnviron key],
     match layered (environ w) (EnvFileProvider.values p) key with
     | Some s => Ok (@Str callable s)
     | None => Ok Empty
     end).
Proof.
  unfold first_value, except_KeyError, layered.
  rewrite environ_provider_get, file_provider_get.
  destruct (environ w !! key); [done|].
  by destruct (EnvFileProvider.values p !! key).
Qed.

Lemma default_reader_built
    (options : gmap string EnvFileProvider.options) (w0 : world)
    (tr : list event) (r : t callable) :
  init [] options w0 = (tr, Ok r) →
  ∃ p, EnvFileProvider.init
         (default EnvFileProvider.no_options (options !! "env_file")) w0
         = (tr, Ok p)
       ∧ r = Reader [environ_provider; file_provider p].
Proof.
  rewrite init_unfold. unfold chosen, default_providers.
  rewrite !instantiate_cons. simpl. unfold bind, block_for. simpl.
  destruct (EnvFileProvider.init _ w0) as [t1 [p|e]]; [|done].
  simpl. rewrite !app_nil_r. intros [= <- <-]. by exists p.
Qed.

(** X16: the default reader answers from two layers: the environment
    as it is at the moment of the call, and under it the values its file
    provider loaded when the reader was built.  A key in the environment
    wins; a [get] reads nothing but the environment. *)
Theorem default_reader_layers
    (options : gmap string EnvFileProvider.options) (w0 : world)
    (tr : list event) (r : t callable) :
  init [] options w0 = (tr, Ok r) →
  ∃ p, EnvFileProvider.init
         (default EnvFileProvider.no_options (options !! "env_file")) w0
         = (tr, Ok p)
       ∧ ∀ key default w,
           get r key default Empty w =
             ([EvEnviron key],
              match layered (environ w) (EnvFileProvider.values p) key with
              | Some s => Ok (Str s)
              | None => if is_empty default then Raise (KeyError (Some key))
                        else Ok default
              end).
Proof.
  intros (p & Hp & ->)%default_reader_built. exists p. split; [done|].
  intros key default w. rewrite get_unfold. simpl providers.
  rewrite first_value_default.
  by destruct (layered _ _ key).
Qed.

(** X17: on the default reader the [bool] accessor without callback
    never raises [TypeError]: both providers hold text, so a resolved key
    gives a boolean, true exactly when the text is one of the true words,
    case aside. *)
Theorem default_reader_bool
    (options : gmap string EnvFileProvider.options) (w0 : world)
    (tr : list event) (r : t callable) :
  init [] options w0 = (tr, Ok r) →
  ∃ p, EnvFileProvider.init
         (default EnvFileProvider.no_options (options !! "env_file")) w0
         = (tr, Ok p)
       ∧ ∀ key default w,
           bool_ r key default Empty w =
             ([EvEnviron key],
              match layered (environ w) (EnvFileProvider.values p) key with
              | Some s =>
                  Ok (Bool (existsb (same_ignoring_case s) true_words))
              | None => if is_empty default then Raise (KeyError (Some key))
                        else Ok default
              end).
Proof.
  intros (p & Hp & ->)%default_reader_built. exists p. split; [done|].
  intros key default w.
  unfold VariableReader.bool_, VariableReader.typed_get.
  rewrite get_unfold. simpl providers. rewrite first_value_default.
  destruct (layered _ _ key) as [s|]; simpl; [|done].
  by rewrite lower_truthy.
Qed.

End ReaderMore.

(** ** The boolean conversion *)
Section BoolMore.
Import Text VariableReader.

Context {callable : Type}.

Lemma isspace_lower_char (c : ascii) : isspace (lower_char c) = isspace c.
Proof. by destruct c as [[] [] [] [] [] [] [] []]. Qed.

Lemma lower_nil (s : string) : lower s = "" → s = "".
Proof. by destruct s. Qed.

Lemma starts_with_space_lower (s : string) :
  starts_with_space (lower s) = starts_with_space s.
Proof. destruct s; [done|]. apply isspace_lower_char. Qed.

Lemma ends_with_space_lower (s : string) :
  ends_with_space (lower s) = ends_with_space s.
Proof.
  induction s as [|c s IH]; [done|]. simpl.
  destruct s as [|d s]; [apply isspace_lower_char|]. exact IH.
Qed.

Lemma trimmed_lower (s : string) : trimmed (lower s) = trimmed s.
Proof.
  unfold trimmed. by rewrite starts_with_space_lower, ends_with_space_lower.
Qed.

(** X18: the conversion does no trimming: a text with whitespace at
    either end is false, whatever is between. *)
Theorem untrimmed_text_is_false (s : string) :
  trimmed s = false → @value_to_bool callable (Str s) = Ok (Bool false).
Proof.
  intros Hs. simpl. do 2 f_equal. apply bool_decide_eq_false.
  intros Hin. apply truthy_words in Hin. rewrite <- trimmed_lower in Hs.
  destruct Hin as [H|[H|[H|H]]]; by rewrite H in Hs.
Qed.

End BoolMore.

(** ** More concrete runs *)
Section MoreRuns.
Import Text VariableReader EnvFileProvider Sample More.

Lemma environ_get_live_witness :
  EnvVariablesProvider.get "A" (setenv "A" "1" w_bare)
    = ([EvEnviron "A"], Ok "1")
  ∧ EnvVariablesProvider.get "PORT" (setenv "A" "1" w_env)
    = ([EvEnviron "PORT"], Ok "8080").
Proof.
  destruct (environ_get_live "A" "1" w_bare) as (Hset & _).
  destruct (environ_get_live "A" "1" w_env) as (_ & _ & Hother & _).
  split; [exact Hset|]. exact (Hother "PORT" ltac:(done)).
Defined.


Lemma require_file_only_when_missing_witness :
  init (Options None (Some true)) w_env = init (Options None None) w_env.
Proof.
  apply require_file_only_when_missing. by exists env_text.
Defined.

Lemma w_file_loaded :
  init no_options w_file
    = ([EvExists ".env"; EvOpen ".env"], Ok (Provider ".env" file_values)).
Proof. reflexivity. Defined.

Lemma loaded_entries_tidy_witness :
  tidy "A" ∧ tidy "file" ∧ contains "=" "A" = false.
Proof.
  exact (loaded_entries_tidy no_options w_file _ _ "A" "file"
           w_file_loaded eq_refl).
Defined.

Lemma empty_key_and_value_witness :
  read_line ∅ (" =x" +:+ nl) = Ok {[ "" := "x" ]}
  ∧ read_line ∅ "K= " = Ok {[ "K" := "" ]}.
Proof.
  destruct (empty_key_and_value " " ("x" +:+ nl) "K" eq_refl)
    as (Hkey & _ & Hvalue).
  split; [exact (Hkey ∅) | exact (Hvalue eq_refl eq_refl ∅)].
Defined.

Lemma line_order_irrelevant_witness :
  ∃ p p', (init no_options w_ab).2 = Ok p ∧ (init no_options w_ba).2 = Ok p'
          ∧ values p = values p'.
Proof.
  apply (line_order_irrelevant no_options no_options w_ab w_ba
           (unlines ["A=1"; "B=2"]) (unlines ["B=2"; "A=1"])
           [Some ("A", "1"); Some ("B", "2")]
           [Some ("B", "2"); Some ("A", "1")]); try reflexivity.
  - vm_compute.
    constructor; [by apply (denotes_entry "" "A" "" "" "1" nl)|].
    constructor; [by apply (denotes_entry "" "B" "" "" "2" nl)|].
    constructor.
  - vm_compute.
    constructor; [by apply (denotes_entry "" "B" "" "" "2" nl)|].
    constructor; [by apply (denotes_entry "" "A" "" "" "1" nl)|].
    constructor.
  - apply Permutation_swap.
  - simpl. apply NoDup_cons. split; [|apply NoDup_singleton].
    intros H%list_elem_of_singleton. discriminate H.
Defined.

Lemma comments_only_file_witness :
  init no_options w_notes
    = ([EvExists ".env"; EvOpen ".env"], Ok (Provider ".env" ∅)).
Proof.
  apply (proj1 (comments_only_file no_options w_notes
                  (unlines ["# only notes"; ""; "   "]) eq_refl
                  ltac:(vm_compute; repeat first
                          [ apply Forall_nil_2
                          | apply Forall_cons_2; [(by left) || (by right)|] ]))).
Defined.

Lemma final_newline_irrelevant_witness :
  init no_options w_open_end = init no_options w_closed_end.
Proof.
  exact (final_newline_irrelevant no_options w_open_end w_closed_end "A=1"
           eq_refl eq_refl).
Defined.

Lemma environ_resolves_A :
  resolves "A" w_env (@environ_provider fn) (Str "env").
Proof. by split. Defined.

Lemma environ_resolves_PORT :
  resolves "PORT" w_env (@environ_provider fn) (Str "8080").
Proof. by split. Defined.

Lemma get_applies_callback_witness :
  Sample.get env_only "A" Empty (Fn shout) w_env
    = ([EvEnviron "A"], Ok (Str "env!"))
  ∧ Sample.get env_only "A" (Str "d") (Fn add_one) w_env
    = ([EvEnviron "A"], Raise TypeError).
Proof.
  split.
  - exact (get_applies_callback Sample.apply_fn Sample.builtin_str
             Sample.builtin_int "A" w_env [] environ_provider []
             (Str "env") Empty shout (Forall_nil_2 _) environ_resolves_A).
  - exact (get_applies_callback Sample.apply_fn Sample.builtin_str
             Sample.builtin_int "A" w_env [] environ_provider []
             (Str "env") (Str "d") add_one (Forall_nil_2 _)
             environ_resolves_A).
Defined.

Lemma typed_accessor_converts_witness :
  Sample.bool_ (Reader [float_provider]) "RATIO" Empty Empty w_bare
    = ([], Raise TypeError)
  ∧ Sample.int_ env_only "PORT" Empty Empty w_env
    = ([EvEnviron "PORT"], Ok (Int 8080)).
Proof.
  split.
  - exact (proj1 (typed_accessor_converts Sample.apply_fn Sample.builtin_str
                    Sample.builtin_int "RATIO" w_bare [] float_provider []
                    (Other "float") Empty (Forall_nil_2 _)
                    ltac:(by split))).
  - exact (proj2 (proj2 (typed_accessor_converts Sample.apply_fn
                           Sample.builtin_str Sample.builtin_int "PORT" w_env
                           [] environ_provider [] (Str "8080") Empty
                           (Forall_nil_2 _) environ_resolves_PORT))).
Defined.

Lemma typed_accessor_returns_closure_witness :
  Sample.int_ env_only "A" Empty (Fn add_one) w_env
    = ([EvEnviron "A"], Ok (InnerLambda to_int (Fn add_one))).
Proof.
  exact (proj1 (typed_accessor_returns_closure Sample.apply_fn
                  Sample.builtin_str Sample.builtin_int "A" w_env []
                  environ_provider [] (Str "env") Empty (Fn add_one) to_int
                  (Forall_nil_2 _) environ_resolves_A ltac:(done))).
Defined.

Lemma default_reader_init :
  VariableReader.init fn [] ∅ w_file
    = ([EvExists ".env"; EvOpen ".env"], Ok default_reader).
Proof. reflexivity. Defined.


Lemma reader_construction_fails_witness :
  VariableReader.init fn
    [EnvVariablesProvider_class fn; failing_class; EnvFileProvider_class fn]
    ∅ w_file
    = ([], Raise (OtherError "RuntimeError")).
Proof.
  apply (reader_construction_fails
           [EnvVariablesProvider_class fn; failing_class;
            EnvFileProvider_class fn]
           [EnvVariablesProvider_class fn] [EnvFileProvider_class fn]
           failing_class ∅ w_file (OtherError "RuntimeError")); try reflexivity.
  apply Forall_cons_2; [by exists environ_provider | apply Forall_nil_2].
Defined.


Lemma default_reader_layers_witness :
  Sample.get default_reader "A" Empty Empty w_file
    = ([EvEnviron "A"], Ok (Str "env"))
  ∧ Sample.get default_reader "B" Empty Empty w_later
    = ([EvEnviron "B"], Ok (Str "now"))
  ∧ Sample.get default_reader "A" Empty Empty w_later
    = ([EvEnviron "A"], Ok (Str "file")).
Proof.
  destruct (default_reader_layers Sample.apply_fn Sample.builtin_str
              Sample.builtin_int ∅ w_file _ default_reader
              default_reader_init) as (p & Hp & Hget).
  assert (p = Provider ".env" file_values) as ->.
  { pose proof (eq_trans (eq_sym Hp) w_file_loaded) as Hsame.
    by injection Hsame. }
  split; [exact (Hget "A" Empty w_file)|].
  split; [exact (Hget "B" Empty w_later) | exact (Hget "A" Empty w_later)].
Defined.

Lemma default_reader_bool_witness :
  Sample.bool_ default_reader "DEBUG" Empty Empty w_file
    = ([EvEnviron "DEBUG"], Ok (Bool true))
  ∧ Sample.bool_ default_reader "FLAG" Empty Empty w_later
    = ([EvEnviron "FLAG"], Ok (Bool true))
  ∧ Sample.bool_ default_reader "A" Empty Empty w_later
    = ([EvEnviron "A"], Ok (Bool false)).
Proof.
  destruct (default_reader_bool Sample.apply_fn Sample.builtin_str
              Sample.builtin_int ∅ w_file _ default_reader
              default_reader_init) as (p & Hp & Hget).
  assert (p = Provider ".env" file_values) as ->.
  { pose proof (eq_trans (eq_sym Hp) w_file_loaded) as Hsame.
    by injection Hsame. }
  split; [exact (Hget "DEBUG" Empty w_file)|].
  split; [exact (Hget "FLAG" Empty w_later) | exact (Hget "A" Empty w_later)].
Defined.

Lemma untrimmed_text_is_false_witness :
  @value_to_bool fn (Str "yes ") = Ok (Bool false).
Proof. exact (untrimmed_text_is_false "yes " eq_refl). Defined.

End MoreRuns.
